(** * Plan gists: the encoder, the decoder and the id-agnostic hash

    A shallow embedding of [pkg/sql/opt/exec/explain/plan_gist_factory.go]:
    the gist writer that appends to a byte buffer while feeding a rolling
    hash, the varint primitives it is built from, and the stack decoder
    that rebuilds an [explain.Node] tree from a gist. *)

From Stdlib Require Import ZArith List Lia Bool String Ascii.
From Stdlib.Strings Require Import Byte.
From Equations Require Import Equations.
Import ListNotations.
Local Open Scope Z_scope.

Set Implicit Arguments.

(* ===================================================================== *)
(** ** Go's [byte] *)
(* ===================================================================== *)

Module GoByte.

(** [uint64(b)] for a byte [b]. *)
Definition to_Z (b : byte) : Z := Z.of_N (Byte.to_N b).

(** [byte(x)]: the conversion keeps the low eight bits. *)
Definition of_Z (z : Z) : byte :=
  match Byte.of_N (Z.to_N (z mod 256)) with
  | Some b => b
  | None => x00
  end.
End GoByte.

(* ===================================================================== *)
(** ** Machine integers *)
(* ===================================================================== *)

(** Go's [uint64] and [int64] (and [int], 64 bits wide on every platform the
    repository builds for) are integers with the wrap-around written out. *)
Module Int64.

Definition modulus : Z := 2 ^ 64.
Definition half : Z := 2 ^ 63.

(** The value kept by a [uint64] after an arithmetic operation. *)
Definition wrap (z : Z) : Z := z mod modulus.

(** [uint64(x)] for [x : int64]. *)
Definition to_unsigned (x : Z) : Z := x mod modulus.

(** [int64(u)] for [u : uint64]. *)
Definition to_signed (u : Z) : Z := if u <? half then u else u - modulus.

(** [^u] on [uint64]. *)
Definition unot (u : Z) : Z := modulus - 1 - u.

(** [^x] on [int64]. *)
Definition snot (x : Z) : Z := - x - 1.

Definition is_uint64 (u : Z) : Prop := 0 <= u < modulus.
Definition is_int64 (x : Z) : Prop := - half <= x < half.
End Int64.

(* ===================================================================== *)
(** ** Error values and panics *)
(* ===================================================================== *)

(** The [error] values that travel through the gist code. *)
Inductive error : Type :=
| EOF                                (* io.EOF *)
| ErrOverflow                        (* binary: varint overflows a 64-bit integer *)
| ErrCorruptInput (msg : string)     (* base64.CorruptInputError *)
| ErrUnsupportedVersion (ver : Z)    (* "unsupported old plan gist version %d" *)
| ErrOperatorBody (op : Z)           (* an error returned by decodeOperatorBody *)
| ErrCatalog (msg : string)          (* an error returned by the catalog *)
| ErrAssertionFailed (msg : string). (* errors.AssertionFailedf / HandleAsAssertionFailure *)

(** Faults raised by the Go runtime itself rather than by a [panic(err)]. *)
Inductive runtime_error : Type :=
| IndexOutOfRange (index len : Z)    (* index out of range [index] with length len *)
| MakesliceLenOutOfRange             (* makeslice: len out of range *)
| TypeAssertionFailed                 (* interface conversion: ... is not cat.Table *)
| NilDereference.                     (* invalid memory address or nil pointer dereference *)

(** What [recover()] hands back. *)
Inductive panic_value : Type :=
| PanicError (e : error)             (* panic(err) *)
| PanicRuntime (r : runtime_error).

(* ===================================================================== *)
(** ** encoding/binary: varints *)
(* ===================================================================== *)

Module Binary.

Import GoByte.

Definition MaxVarintLen64 : nat := 10.

(** [a | b] on bytes. *)
Definition byte_or (a b : byte) : byte := of_Z (Z.lor (to_Z a) (to_Z b)).

(** [PutUvarint]: seven bits per byte, low group first, the high bit set
    on every byte but the last.
<<
    for x >= 0x80 { buf[i] = byte(x) | 0x80; x >>= 7; i++ }
    buf[i] = byte(x)
>>  *)
Equations? PutUvarint (x : Z) : list byte by wf (Z.to_nat (Z.log2 x)) lt :=
  PutUvarint x with Z_le_dec 0x80 x := {
    | left _ => byte_or (of_Z x) x80 :: PutUvarint (Z.shiftr x 7)
    | right _ => [of_Z x]
  }.
Proof.
  rewrite Z.log2_shiftr by lia.
  assert (7 <= Z.log2 x) by (apply (Z.log2_le_mono 128 x); lia).
  lia.
Qed.

(** [PutVarint]: zig-zag, then [PutUvarint].
<<
    ux := uint64(x) << 1
    if x < 0 { ux = ^ux }
>>  *)
Definition zigzag (x : Z) : Z :=
  let ux := Int64.wrap (Z.shiftl (Int64.to_unsigned x) 1) in
  if x <? 0 then Int64.unot ux else ux.

Definition PutVarint (x : Z) : list byte := PutUvarint (zigzag x).

(** [ReadUvarint] over a [bytes.Buffer], whose unread bytes are the list.
    [left] counts the iterations that remain: the loop index is
    [i = MaxVarintLen64 - left].  The result is the pair the Go function
    returns, with the bytes left unread.
<<
    for i := 0; i < MaxVarintLen64; i++ {
      b, err := r.ReadByte()
      if err != nil { return x, err }
      if b < 0x80 {
        if i == MaxVarintLen64-1 && b > 1 { return x, overflow }
        return x | uint64(b)<<s, nil
      }
      x |= uint64(b&0x7f) << s
      s += 7
    }
    return x, overflow
>>  *)
Fixpoint ReadUvarint_loop (left : nat) (x s : Z) (buf : list byte)
  : (Z * option error) * list byte :=
  match left with
  | O => ((x, Some ErrOverflow), buf)
  | S left' =>
      match buf with
      | [] => ((x, Some EOF), [])
      | b :: buf' =>
          if to_Z b <? 0x80 then
            if Nat.eqb left' 0 && (1 <? to_Z b)
            then ((x, Some ErrOverflow), buf')
            else ((Z.lor x (Int64.wrap (Z.shiftl (to_Z b) s)), None), buf')
          else
            ReadUvarint_loop left'
              (Z.lor x (Int64.wrap (Z.shiftl (Z.land (to_Z b) 0x7f) s)))
              (s + 7) buf'
      end
  end.

Definition ReadUvarint (buf : list byte) : (Z * option error) * list byte :=
  ReadUvarint_loop MaxVarintLen64 0 0 buf.

(** [ReadVarint]: it goes on "in presence of error", as the source says.
<<
    ux, err := ReadUvarint(r)
    x := int64(ux >> 1)
    if ux&1 != 0 { x = ^x }
    return x, err
>>  *)
Definition unzigzag (ux : Z) : Z :=
  let x := Int64.to_signed (Z.shiftr ux 1) in
  if negb (Z.land ux 1 =? 0) then Int64.snot x else x.

Definition ReadVarint (buf : list byte) : (Z * option error) * list byte :=
  let '((ux, err), rest) := ReadUvarint buf in
  ((unzigzag ux, err), rest).

End Binary.

(* ===================================================================== *)
(** ** Collaborators: the rolling hash, base64, the catalog *)
(* ===================================================================== *)

(** Modelled from the spec: [util.FNV64] (pkg/util) is not under src/.  The
    accumulator is the "incremental FNV64 hash" of the byte sequence
    presented to the writer: the 64-bit FNV-1 step, multiply by the prime
    and xor the next value in, starting from the offset basis. *)
Module FNV64.

Definition fnvBase : Z := 14695981039346656037.
Definition fnvPrime : Z := 1099511628211.

Definition Init : Z := fnvBase.

Definition Add (sum c : Z) : Z := Z.lxor (Int64.wrap (sum * fnvPrime)) c.

Definition Sum (sum : Z) : Z := sum.

(** The hash of a byte sequence taken in order, from a given state. *)
Definition fold (sum : Z) (data : list byte) : Z :=
  fold_left (fun h b => Add h (GoByte.to_Z b)) data sum.

End FNV64.

(** [base64.StdEncoding.EncodeToString]: three bytes give four characters
    of the standard alphabet, the tail is padded with ['=']. *)
Module Base64.

Definition encodeStd : string :=
  "ABCDEFGHIJKLMNOPQRSTUVWXYZabcdefghijklmnopqrstuvwxyz0123456789+/".

Definition padChar : ascii := "="%char.

(** [enc.encode[v & 0x3F]] *)
Definition char (v : Z) : ascii :=
  match String.get (Z.to_nat (Z.land v 0x3F)) encodeStd with
  | Some c => c
  | None => padChar
  end.

Fixpoint EncodeToString (src : list byte) : string :=
  match src with
  | [] => EmptyString
  | [a] =>
      let val := Z.shiftl (GoByte.to_Z a) 16 in
      String (char (Z.shiftr val 18))
        (String (char (Z.shiftr val 12))
           (String padChar (String padChar EmptyString)))
  | [a; b] =>
      let val := Z.lor (Z.shiftl (GoByte.to_Z a) 16) (Z.shiftl (GoByte.to_Z b) 8) in
      String (char (Z.shiftr val 18))
        (String (char (Z.shiftr val 12))
           (String (char (Z.shiftr val 6)) (String padChar EmptyString)))
  | a :: b :: c :: rest =>
      let val := Z.lor (Z.lor (Z.shiftl (GoByte.to_Z a) 16)
                              (Z.shiftl (GoByte.to_Z b) 8)) (GoByte.to_Z c) in
      String (char (Z.shiftr val 18))
        (String (char (Z.shiftr val 12))
           (String (char (Z.shiftr val 6))
              (String (char val) (EncodeToString rest))))
  end.

End Base64.

(** The part of [cat.Catalog] the decoder talks to.  A [cat.StableID] is a
    [uint64]. *)
Record Index : Type := {
  IndexID : Z;
  IndexName : string
}.

Record Table : Type := {
  TableID : Z;
  TableName : string;
  TableIndexes : list Index        (* Index(0) .. Index(IndexCount()-1) *)
}.

(** A [cat.DataSource] is a table, a view or a sequence. *)
Inductive DataSource : Type :=
| DSTable (t : Table)
| DSView (id : Z) (name : string)
| DSSequence (id : Z) (name : string).

Record Catalog : Type := {
  (** [ResolveDataSourceByID(ctx, flags, id)]: the data source, or an error
      when the id is unknown. *)
  ResolveDataSourceByID : Z -> DataSource + error
}.

(* ===================================================================== *)
(** ** Nodes and the factory state *)
(* ===================================================================== *)

(** [type execOperator int]; [unknownOp] is the first value of the
    enumeration. *)
Definition execOperator : Type := Z.
Definition unknownOp : execOperator := 0.

(** Element types of the list-valued parameters, each with the zero value
    that [make] fills a fresh slice with. *)
Definition NodeColumnOrdinal : Type := Z.
Definition zeroNodeColumnOrdinal : NodeColumnOrdinal := 0.

Record ResultColumn : Type := {
  ColName : string;
  ColHidden : bool
}.
Definition zeroResultColumn : ResultColumn :=
  {| ColName := EmptyString; ColHidden := false |}.

Definition TypedExpr : Type := string.
Definition zeroRow : list TypedExpr := [].

Definition ColumnOrdering : Type := list (Z * bool).

(** What the decode routines hand to a node. *)
Inductive arg : Type :=
| AInt (i : Z)
| ABool (b : bool)
| AJoinType (j : byte)
| ATable (t : option Table)
| AIndex (i : option Index)
| ASchema
| ANodeColumnOrdinals (vals : list NodeColumnOrdinal)
| AResultColumns (cols : list ResultColumn)
| ARows (rows : list (list TypedExpr))
| AColumnOrdering (ord : ColumnOrdering).

(** Modelled from the spec: [explain.Node] is declared outside src/.  A node
    is its operator tag, the operator-specific decoded fields and the
    ordered children. *)
#[local] Unset Elimination Schemes.
Inductive Node : Type :=
| mkNode (op : execOperator) (args : list arg) (children : list Node).
#[local] Set Elimination Schemes.

Definition node_op (n : Node) : execOperator :=
  let '(mkNode op _ _) := n in op.
Definition node_args (n : Node) : list arg :=
  let '(mkNode _ args _) := n in args.
Definition node_children (n : Node) : list Node :=
  let '(mkNode _ _ children) := n in children.

(** [exec.Subquery{Root: n}] and [explain.Plan]. *)
Record Subquery : Type := { SubqueryRoot : Node }.

Record Plan : Type := {
  Root : option Node;
  Subqueries : list Subquery;
  Checks : list Node
}.

Definition emptyPlan : Plan := {| Root := None; Subqueries := []; Checks := [] |}.

(** [PlanGistFactory].  [buffer] holds the unread bytes of the
    [bytes.Buffer]: [Write] appends at the end, [ReadByte] takes from the
    front.  [nodeStack] is the slice, bottom first.  The wrapped factory is
    a collaborator and keeps no gist state. *)
Record PlanGistFactory : Type := {
  buffer : list byte;
  hash : Z;
  nodeStack : list Node;
  catalog : option Catalog
}.

Definition set_buffer (f : PlanGistFactory) (b : list byte) : PlanGistFactory :=
  {| buffer := b; hash := hash f; nodeStack := nodeStack f; catalog := catalog f |}.
Definition set_hash (f : PlanGistFactory) (h : Z) : PlanGistFactory :=
  {| buffer := buffer f; hash := h; nodeStack := nodeStack f; catalog := catalog f |}.
Definition set_nodeStack (f : PlanGistFactory) (s : list Node) : PlanGistFactory :=
  {| buffer := buffer f; hash := hash f; nodeStack := s; catalog := catalog f |}.
Definition set_catalog (f : PlanGistFactory) (c : option Catalog) : PlanGistFactory :=
  {| buffer := buffer f; hash := hash f; nodeStack := nodeStack f; catalog := c |}.

(** [PlanGist]: the base64 text of the buffer and the hash. *)
Record PlanGist : Type := {
  gist : string;
  gist_hash : Z
}.

(** [var version = 1] *)
Definition version : Z := 1.

(* ===================================================================== *)
(** ** The write path *)
(* ===================================================================== *)

(** [bytes.Buffer.Write] always returns a nil error, so the [panic(err)]
    branches of the encode primitives are dead and the primitives are plain
    state transformers. *)

(** [f.buffer.Write(data)] *)
Definition buffer_Write (data : list byte) (f : PlanGistFactory) : PlanGistFactory :=
  set_buffer f (buffer f ++ data).

(** [for _, b := range data { f.hash.Add(uint64(b)) }] *)
Definition writeHash (data : list byte) (f : PlanGistFactory) : PlanGistFactory :=
  set_hash f (fold_left (fun h b => FNV64.Add h (GoByte.to_Z b)) data (hash f)).

Definition Write (data : list byte) (f : PlanGistFactory) : PlanGistFactory :=
  writeHash data (buffer_Write data f).

Definition encodeByte (b : byte) (f : PlanGistFactory) : PlanGistFactory :=
  Write [b] f.

Definition encodeOperator (op : execOperator) (f : PlanGistFactory) : PlanGistFactory :=
  encodeByte (GoByte.of_Z op) f.

Definition encodeInt (i : Z) (f : PlanGistFactory) : PlanGistFactory :=
  Write (Binary.PutVarint i) f.

(** "does a numeric id based encoding to the gist and a symbolic encoding to
    the hash": [int64(id)] goes to the buffer only, the name to the hash
    only. *)
Definition encodeDataSource (id : Z) (name : string) (f : PlanGistFactory)
  : PlanGistFactory :=
  writeHash (list_byte_of_string name)
    (buffer_Write (Binary.PutVarint (Int64.to_signed id)) f).

Definition encodeID (id : Z) (f : PlanGistFactory) : PlanGistFactory :=
  encodeInt (Int64.to_signed id) f.

(** [len(vals)] as an [int]. *)
Definition len {A : Type} (l : list A) : Z := Z.of_nat (List.length l).

Definition encodeNodeColumnOrdinals (vals : list NodeColumnOrdinal)
  (f : PlanGistFactory) : PlanGistFactory := encodeInt (len vals) f.

Definition encodeResultColumns (vals : list ResultColumn)
  (f : PlanGistFactory) : PlanGistFactory := encodeInt (len vals) f.

Definition encodeRows (rows : list (list TypedExpr))
  (f : PlanGistFactory) : PlanGistFactory := encodeInt (len rows) f.

Definition encodeBool (b : bool) (f : PlanGistFactory) : PlanGistFactory :=
  if b then encodeByte x01 f else encodeByte x00 f.

(** "TODO: enable this or remove it..." *)
Definition encodeColumnOrdering (cols : ColumnOrdering) (f : PlanGistFactory)
  : PlanGistFactory := f.

(** [new(PlanGistFactory)], [f.hash.Init()], [f.encodeInt(version)]. *)
Definition NewPlanGistFactory : PlanGistFactory :=
  encodeInt version
    {| buffer := []; hash := FNV64.Init; nodeStack := []; catalog := None |}.

(** [ConstructPlan] delegates to the wrapped factory: the gist state is not
    touched. *)
Definition ConstructPlan (f : PlanGistFactory) : PlanGistFactory := f.

Definition getPlanGist (f : PlanGistFactory) : PlanGist :=
  {| gist := Base64.EncodeToString (buffer f);
     gist_hash := FNV64.Sum (hash f) |}.

(** The accessors [PlanGist.String] and [PlanGist.Hash]. *)
Definition PlanGist_String (fp : PlanGist) : string := gist fp.
Definition PlanGist_Hash (fp : PlanGist) : Z := gist_hash fp.

(* ===================================================================== *)
(** ** The read path *)
(* ===================================================================== *)

(** Decode routines read the buffer, move the node stack and may panic:
    a state monad over the factory whose result is a value or the panic
    value.  The state survives a panic, as the factory does in Go. *)
Inductive result (A : Type) : Type :=
| Ok (a : A)
| Panic (p : panic_value).
Arguments Ok {A} a.
Arguments Panic {A} p.

Definition M (A : Type) : Type := PlanGistFactory -> result A * PlanGistFactory.

Definition ret {A : Type} (a : A) : M A := fun f => (Ok a, f).

Definition bind {A B : Type} (m : M A) (k : A -> M B) : M B :=
  fun f =>
    match m f with
    | (Ok a, f') => k a f'
    | (Panic p, f') => (Panic p, f')
    end.

Definition panic {A : Type} (p : panic_value) : M A := fun f => (Panic p, f).

Notation "x <- m ;; k" := (bind m (fun x => k))
  (at level 61, m at next level, right associativity).

(** [f.buffer.ReadByte()]: the next byte, or [io.EOF] on an empty buffer. *)
Definition buffer_ReadByte (f : PlanGistFactory)
  : (byte * option error) * PlanGistFactory :=
  match buffer f with
  | [] => ((x00, Some EOF), f)
  | b :: rest => ((b, None), set_buffer f rest)
  end.

Definition decodeInt : M Z := fun f =>
  let '((val, err), rest) := Binary.ReadVarint (buffer f) in
  match err with
  | Some e => (Panic (PanicError e), set_buffer f rest)
  | None => (Ok val, set_buffer f rest)
  end.

(** [cat.StableID(f.decodeInt())] *)
Definition decodeID : M Z :=
  i <- decodeInt ;; ret (Int64.to_unsigned i).

(** A method call on a nil [cat.Catalog] is a nil dereference; an id the
    catalog cannot resolve gives [nil] ("unknown table"); a data source that
    is not a table fails the type assertion [ds.(cat.Table)]. *)
Definition decodeTable : M (option Table) :=
  id <- decodeID ;;
  fun f =>
    match catalog f with
    | None => (Panic (PanicRuntime NilDereference), f)
    | Some c =>
        match ResolveDataSourceByID c id with
        | inr _ => (Ok None, f)
        | inl (DSTable t) => (Ok (Some t), f)
        | inl _ => (Panic (PanicRuntime TypeAssertionFailed), f)
        end
    end.

(** [for i, n := 0, tbl.IndexCount(); i < n; i++ { if tbl.Index(i).ID() == id ...] *)
Fixpoint findIndex (id : Z) (indexes : list Index) : option Index :=
  match indexes with
  | [] => None
  | idx :: rest => if IndexID idx =? id then Some idx else findIndex id rest
  end.

Definition decodeIndex (tbl : option Table) : M (option Index) :=
  id <- decodeID ;;
  match tbl with
  | None => ret None
  | Some t => ret (findIndex id (TableIndexes t))
  end.

(** "TODO: implement this and figure out how to test...": the id is read
    and dropped. *)
Definition decodeSchema : M unit :=
  _ <- decodeID ;; ret tt.

(** [make([]T, l)]: a negative length is a runtime panic, otherwise [l]
    zero values. *)
Definition make {A : Type} (zero : A) (l : Z) : M (list A) :=
  if l <? 0 then panic (PanicRuntime MakesliceLenOutOfRange)
  else ret (repeat zero (Z.to_nat l)).

Definition decodeNodeColumnOrdinals : M (list NodeColumnOrdinal) :=
  l <- decodeInt ;; make zeroNodeColumnOrdinal l.

Definition decodeResultColumns : M (list ResultColumn) :=
  numCols <- decodeInt ;; make zeroResultColumn numCols.

Definition decodeRows : M (list (list TypedExpr)) :=
  numRows <- decodeInt ;; make zeroRow numRows.

Definition decodeByte : M byte := fun f =>
  match buffer_ReadByte f with
  | ((_, Some e), f') => (Panic (PanicError e), f')
  | ((val, None), f') => (Ok val, f')
  end.

Definition decodeJoinType : M byte := decodeByte.

Definition decodeBool : M bool :=
  val <- decodeByte ;; ret (negb (GoByte.to_Z val =? 0)).

Definition decodeColumnOrdering : M ColumnOrdering := ret [].

(** [n := f.nodeStack[l-1]; f.nodeStack = f.nodeStack[:l-1]]: indexing an
    empty stack at [-1] is the runtime's index-out-of-range panic. *)
Definition popChild : M Node := fun f =>
  let l := len (nodeStack f) in
  if (l - 1 <? 0) || (l <=? l - 1)
  then (Panic (PanicRuntime (IndexOutOfRange (l - 1) l)), f)
  else
    match nth_error (nodeStack f) (Z.to_nat (l - 1)) with
    | Some n => (Ok n, set_nodeStack f (firstn (Z.to_nat (l - 1)) (nodeStack f)))
    | None => (Panic (PanicRuntime (IndexOutOfRange (l - 1) l)), f)
    end.

(* ===================================================================== *)
(** ** [DecodePlanGistToPlan] *)
(* ===================================================================== *)

(** What a call of [DecodePlanGistToPlan] comes to: the pair it returns, or
    the panic it lets through.  [OutOfFuel] marks a loop cut short by the
    bound of the model; it is shown unreachable below. *)
Inductive outcome : Type :=
| Returned (plan : option Plan) (retErr : option error)
| Panicked (r : panic_value)
| OutOfFuel.

(** How the body of the function ends, before the deferred handler runs. *)
Inductive body_end : Type :=
| BodyReturn (plan : option Plan) (err : option error)
| BodyPanic (r : panic_value)
| BodyOutOfFuel.

Inductive loop_end : Type :=
| LoopBreak
| LoopPanic (r : panic_value)
| LoopOutOfFuel.

Definition add_check (plan : Plan) (n : Node) : Plan :=
  {| Root := Root plan; Subqueries := Subqueries plan; Checks := Checks plan ++ [n] |}.

Definition set_root (plan : Plan) (n : Node) : Plan :=
  {| Root := Some n; Subqueries := Subqueries plan; Checks := Checks plan |}.

Definition add_subqueries (plan : Plan) (stack : list Node) : Plan :=
  {| Root := Root plan;
     Subqueries := Subqueries plan ++ map (fun n => {| SubqueryRoot := n |}) stack;
     Checks := Checks plan |}.

Section Decoder.

(** The generated part of the package is not under src/: the decode
    switch over the operators, which reads an operator's payload, pops its
    children and builds the node (or returns an error), and the value of
    the [errorIfRowsOp] constant. *)
Variable decodeOperatorBody : execOperator -> M (Node + error).
Variable errorIfRowsOp : execOperator.

(** [errorutil.ShouldCatch] is not under src/ either: it says whether a
    recovered value is to be returned as an error, and as which. *)
Variable ShouldCatch : panic_value -> option error.

Definition decodeOp : M execOperator := fun f =>
  let '((val, err), f1) := buffer_ReadByte f in
  match err with
  | Some _ => (Ok unknownOp, f1)
  | None =>
      if GoByte.to_Z val =? 0 then (Ok unknownOp, f1)
      else
        match decodeOperatorBody (GoByte.to_Z val) f1 with
        | (Panic p, f2) => (Panic p, f2)
        | (Ok (inr e), f2) => (Panic (PanicError e), f2)
        | (Ok (inl n), f2) =>
            (Ok (node_op n), set_nodeStack f2 (nodeStack f2 ++ [n]))
        end
  end.

(** The main loop.  Every turn that does not leave the loop has read at
    least the opcode byte, so [fuel] is the number of turns allowed.
<<
    for {
      op := f.decodeOp()
      if op == unknownOp { break }
      switch op {
      case errorIfRowsOp:
        plan.Checks = append(plan.Checks, f.popChild())
      }
    }
>>  *)
Fixpoint decodeLoop (fuel : nat) (plan : Plan) (f : PlanGistFactory)
  : loop_end * Plan * PlanGistFactory :=
  match fuel with
  | O => (LoopOutOfFuel, plan, f)
  | S fuel' =>
      match decodeOp f with
      | (Panic p, f1) => (LoopPanic p, plan, f1)
      | (Ok op, f1) =>
          if op =? unknownOp then (LoopBreak, plan, f1)
          else if op =? errorIfRowsOp then
            match popChild f1 with
            | (Panic p, f2) => (LoopPanic p, plan, f2)
            | (Ok n, f2) => decodeLoop fuel' (add_check plan n) f2
            end
          else decodeLoop fuel' plan f1
      end
  end.

(** The body from [ver := f.decodeInt()] on. *)
Definition decodeBody (fuel : nat) (plan : Plan) (f : PlanGistFactory)
  : body_end * Plan * PlanGistFactory :=
  match decodeInt f with
  | (Panic p, f1) => (BodyPanic p, plan, f1)
  | (Ok ver, f1) =>
      if negb (ver =? version)
      then (BodyReturn None (Some (ErrUnsupportedVersion ver)), plan, f1)
      else
        match decodeLoop fuel plan f1 with
        | (LoopPanic p, plan1, f2) => (BodyPanic p, plan1, f2)
        | (LoopOutOfFuel, plan1, f2) => (BodyOutOfFuel, plan1, f2)
        | (LoopBreak, plan1, f2) =>
            match popChild f2 with
            | (Panic p, f3) => (BodyPanic p, plan1, f3)
            | (Ok n, f3) =>
                let plan2 := add_subqueries (set_root plan1 n) (nodeStack f3) in
                (BodyReturn (Some plan2) None, plan2, f3)
            end
        end
  end.

(** The deferred handler: a recognised fault becomes [retErr], next to
    the [plan] pointer already assigned; any other is raised again.
<<
    if r := recover(); r != nil {
      if ok, e := errorutil.ShouldCatch(r); ok { retErr = e } else { panic(r) }
    }
>>  *)
Definition recovered (e : body_end) (plan : Plan) : outcome :=
  match e with
  | BodyReturn p err => Returned p err
  | BodyOutOfFuel => OutOfFuel
  | BodyPanic r =>
      match ShouldCatch r with
      | Some e => Returned (Some plan) (Some e)
      | None => Panicked r
      end
  end.

(** The factory as the body finds it: fresh, the catalog set, the buffer
    reset and filled with the decoded bytes. *)
Definition decodeFactory (bytes : list byte) (cat : option Catalog)
  : PlanGistFactory :=
  buffer_Write bytes (set_buffer (set_catalog NewPlanGistFactory cat) []).

(** [DecodePlanGistToPlan], with the factory it leaves behind.  [decoded]
    is what [base64.StdEncoding.DecodeString(s)] gave: the bytes or the
    error. *)
Definition runDecode (decoded : list byte + error) (cat : option Catalog)
  : outcome * PlanGistFactory :=
  match decoded with
  | inr err => (Returned None (Some err), set_catalog NewPlanGistFactory cat)
  | inl bytes =>
      let '(e, plan, f) :=
        decodeBody (S (List.length bytes)) emptyPlan (decodeFactory bytes cat) in
      (recovered e plan, f)
  end.

Definition DecodePlanGistToPlan (decoded : list byte + error)
  (cat : option Catalog) : outcome :=
  fst (runDecode decoded cat).

End Decoder.

(* ===================================================================== *)
(** ** Encoding sessions *)
(* ===================================================================== *)

(** One call of an encoding primitive, with its arguments.  An encoding
    session is the list of the calls made on a factory, in order. *)
Inductive call : Type :=
| CallWrite (data : list byte)
| CallOperator (op : execOperator)
| CallInt (i : Z)
| CallByte (b : byte)
| CallBool (b : bool)
| CallDataSource (id : Z) (name : string)
| CallID (id : Z)
| CallNodeColumnOrdinals (vals : list NodeColumnOrdinal)
| CallResultColumns (vals : list ResultColumn)
| CallRows (rows : list (list TypedExpr))
| CallColumnOrdering (cols : ColumnOrdering).

Definition exec_call (c : call) (f : PlanGistFactory) : PlanGistFactory :=
  match c with
  | CallWrite data => Write data f
  | CallOperator op => encodeOperator op f
  | CallInt i => encodeInt i f
  | CallByte b => encodeByte b f
  | CallBool b => encodeBool b f
  | CallDataSource id name => encodeDataSource id name f
  | CallID id => encodeID id f
  | CallNodeColumnOrdinals vals => encodeNodeColumnOrdinals vals f
  | CallResultColumns vals => encodeResultColumns vals f
  | CallRows rows => encodeRows rows f
  | CallColumnOrdering cols => encodeColumnOrdering cols f
  end.

Definition run (calls : list call) (f : PlanGistFactory) : PlanGistFactory :=
  fold_left (fun f c => exec_call c f) calls f.

Definition is_data_source (c : call) : bool :=
  match c with
  | CallDataSource _ _ => true
  | _ => false
  end.

(** The bytes a call appends to the buffer, and the bytes it presents to
    the hash, read off the arguments alone. *)
Definition buffered (c : call) : list byte :=
  match c with
  | CallWrite data => data
  | CallOperator op => [GoByte.of_Z op]
  | CallInt i => Binary.PutVarint i
  | CallByte b => [b]
  | CallBool b => [if b then x01 else x00]
  | CallDataSource id _ => Binary.PutVarint (Int64.to_signed id)
  | CallID id => Binary.PutVarint (Int64.to_signed id)
  | CallNodeColumnOrdinals vals => Binary.PutVarint (len vals)
  | CallResultColumns vals => Binary.PutVarint (len vals)
  | CallRows rows => Binary.PutVarint (len rows)
  | CallColumnOrdering _ => []
  end.

Definition hashed (c : call) : list byte :=
  match c with
  | CallDataSource _ name => list_byte_of_string name
  | _ => buffered c
  end.

(** Two calls that differ at most in the numeric id of a data source. *)
Definition same_but_id (c1 c2 : call) : Prop :=
  match c1, c2 with
  | CallDataSource _ n1, CallDataSource _ n2 => n1 = n2
  | CallDataSource _ _, _ | _, CallDataSource _ _ => False
  | _, _ => c1 = c2
  end.

(* ===================================================================== *)
(** ** The operator layer *)
(* ===================================================================== *)

(** The per-operator [Construct...] methods and [decodeOperatorBody] are
    generated and not under src/.  They are described by a table: for each
    operator, the kinds of its encoded fields, in order, and the number of
    its inputs. *)
Inductive kind : Type :=
| KInt | KBool | KJoinType | KTable | KIndex | KSchema
| KNodeColumnOrdinals | KResultColumns | KRows | KColumnOrdering.

Record opInfo : Type := {
  layout : list kind;
  arity : nat
}.

Definition operatorTable : Type := execOperator -> option opInfo.

(** Modelled from the spec: a [Construct...] method of the factory, not
    under src/.  "For each call: write the opcode byte, then write each
    operator-specific argument via the typed primitives". *)
Definition Construct (op : execOperator) (params : list call)
  (f : PlanGistFactory) : PlanGistFactory :=
  run params (encodeOperator op f).

(** A plan as the builder constructs it: every node is one [Construct...]
    call, made after the calls for its inputs. *)
#[local] Unset Elimination Schemes.
Inductive PlanTree : Type :=
| PT (op : execOperator) (params : list call) (inputs : list PlanTree).
#[local] Set Elimination Schemes.

Fixpoint encodeTree (t : PlanTree) (f : PlanGistFactory) : PlanGistFactory :=
  match t with
  | PT op params inputs =>
      Construct op params (fold_left (fun f i => encodeTree i f) inputs f)
  end.

Definition encodeForest (ts : list PlanTree) (f : PlanGistFactory)
  : PlanGistFactory :=
  fold_left (fun f i => encodeTree i f) ts f.

(** The decode routine paired with each kind of field.  An index is looked
    up in the table decoded before it for the same operator. *)
Definition decodeArg (k : kind) (tbl : option Table) : M arg :=
  match k with
  | KInt => i <- decodeInt ;; ret (AInt i)
  | KBool => b <- decodeBool ;; ret (ABool b)
  | KJoinType => j <- decodeJoinType ;; ret (AJoinType j)
  | KTable => t <- decodeTable ;; ret (ATable t)
  | KIndex => i <- decodeIndex tbl ;; ret (AIndex i)
  | KSchema => _ <- decodeSchema ;; ret ASchema
  | KNodeColumnOrdinals => v <- decodeNodeColumnOrdinals ;; ret (ANodeColumnOrdinals v)
  | KResultColumns => v <- decodeResultColumns ;; ret (AResultColumns v)
  | KRows => v <- decodeRows ;; ret (ARows v)
  | KColumnOrdering => v <- decodeColumnOrdering ;; ret (AColumnOrdering v)
  end.

Definition table_of (a : arg) (tbl : option Table) : option Table :=
  match a with
  | ATable t => t
  | _ => tbl
  end.

Fixpoint decodeArgs (ks : list kind) (tbl : option Table) : M (list arg) :=
  match ks with
  | [] => ret []
  | k :: ks' =>
      a <- decodeArg k tbl ;;
      rest <- decodeArgs ks' (table_of a tbl) ;;
      ret (a :: rest)
  end.

(** The inputs come off the stack last one first and are kept in the order
    they were built. *)
Fixpoint popChildren (n : nat) : M (list Node) :=
  match n with
  | O => ret []
  | S n' =>
      c <- popChild ;;
      before <- popChildren n' ;;
      ret (before ++ [c])
  end.

(** Modelled from the spec: [decodeOperatorBody], not under src/.  It
    "reads exactly the operator-specific payload its paired encode routine
    wrote, pops as many child nodes off the stack as the operator's arity
    requires, constructs a new Node"; an opcode outside the table is an
    error. *)
Definition decodeOperatorBody (ops : operatorTable) (op : execOperator)
  : M (Node + error) :=
  match ops op with
  | None => ret (inr (ErrOperatorBody op))
  | Some info =>
      args <- decodeArgs (layout info) None ;;
      children <- popChildren (arity info) ;;
      ret (inl (mkNode op args children))
  end.

(** A classifier for the worked examples.  [errorutil.ShouldCatch] is not
    under src/, and neither the source nor the spec says which recovered
    values it recognises, so the facts about the decoder are stated for any
    classifier.  Where an example needs one to run the decoder, this one
    recognises the error values raised with [panic(err)] and nothing
    else; [catchAll] recognises every recovered value. *)
Definition catchErrorValues (r : panic_value) : option error :=
  match r with
  | PanicError e => Some e
  | PanicRuntime _ => None
  end.

Definition catchAll (r : panic_value) : option error :=
  match r with
  | PanicError e => Some e
  | PanicRuntime _ => Some (ErrAssertionFailed "runtime error")
  end.

(** Opcode values for the examples.  The enumeration is generated; the
    statements below do not depend on the values chosen here beyond their
    being distinct and different from [unknownOp]. *)
Module Ops.
Definition scanOp : execOperator := 1.
Definition hashJoinOp : execOperator := 9.
Definition sortOp : execOperator := 17.
Definition errorIfRowsOp : execOperator := 41.

Definition table : operatorTable := fun op =>
  if op =? scanOp then Some {| layout := [KTable]; arity := 0 |}
  else if op =? hashJoinOp then Some {| layout := [KJoinType; KBool; KBool]; arity := 2 |}
  else if op =? sortOp then Some {| layout := [KColumnOrdering]; arity := 1 |}
  else if op =? errorIfRowsOp then Some {| layout := []; arity := 1 |}
  else None.
End Ops.

(** The scenario of the spec: a scan of table "t", id 5, under a sort. *)
Module Scenario.
Definition t : Table := {| TableID := 5; TableName := "t"; TableIndexes := [] |}.
Definition cat : Catalog :=
  {| ResolveDataSourceByID := fun id =>
       if id =? 5 then inl (DSTable t) else inr (ErrCatalog "not found") |}.
Definition scan : PlanTree := PT Ops.scanOp [CallDataSource 5 "t"] [].
Definition plan : PlanTree := PT Ops.sortOp [CallColumnOrdering []] [scan].
Definition encoded : PlanGistFactory := encodeTree plan NewPlanGistFactory.
End Scenario.

(* ===================================================================== *)
(** ** Package initialisation *)
(* ===================================================================== *)

(** [init], given the value of [numOperators], the last name of the
    generated enumeration.
<<
    if numOperators != 57 { panic(errors.AssertionFailedf(...)) }
>>  *)
Definition init (numOperators : Z) : result unit :=
  if negb (numOperators =? 57)
  then Panic (PanicError (ErrAssertionFailed
         "Operator field changed (%d), please update check and consider incrementing version"))
  else Ok tt.

(* ===================================================================== *)
(** ** Shapes, records and well-formed plans *)
(* ===================================================================== *)

(** The shape of a tree: the operator of every node and its inputs in
    order.  Two trees of one shape have the same sequence of opcodes, the
    same number of inputs at every node and the same order of inputs. *)
#[local] Unset Elimination Schemes.
Inductive Shape : Type :=
| Sh (op : execOperator) (inputs : list Shape).
#[local] Set Elimination Schemes.

Fixpoint shape_of_tree (t : PlanTree) : Shape :=
  match t with
  | PT op _ inputs => Sh op (map shape_of_tree inputs)
  end.

Fixpoint shape_of_node (n : Node) : Shape :=
  match n with
  | mkNode op _ children => Sh op (map shape_of_node children)
  end.

(** The byte format, read off the tree: the records of the inputs, then the
    opcode byte and the payload of the node itself (post-order). *)
Fixpoint records (t : PlanTree) : list byte :=
  match t with
  | PT op params inputs =>
      List.concat (map records inputs) ++ GoByte.of_Z op :: List.concat (map buffered params)
  end.

Fixpoint size (t : PlanTree) : nat :=
  match t with
  | PT _ _ inputs => S (list_sum (map size inputs))
  end.

Definition is_int64b (x : Z) : bool := (- Int64.half <=? x) && (x <? Int64.half).
Definition is_uint64b (x : Z) : bool := (0 <=? x) && (x <? Int64.modulus).

(** The catalog knows the id as a table, or does not know it at all. *)
Definition table_or_unknown (c : Catalog) (id : Z) : bool :=
  match ResolveDataSourceByID c id with
  | inl (DSTable _) => true
  | inl _ => false
  | inr _ => true
  end.

(** A parameter is of the kind the operator's layout has at its place, and
    within the range of its Go type. *)
Definition param_fits (c : Catalog) (k : kind) (p : call) : bool :=
  match k, p with
  | KInt, CallInt i => is_int64b i
  | KBool, CallBool _ => true
  | KJoinType, CallByte _ => true
  | KTable, CallDataSource id _ => is_uint64b id && table_or_unknown c id
  | KIndex, CallDataSource id _ => is_uint64b id
  | KSchema, CallID id => is_uint64b id
  | KNodeColumnOrdinals, CallNodeColumnOrdinals vals => len vals <? Int64.half
  | KResultColumns, CallResultColumns vals => len vals <? Int64.half
  | KRows, CallRows rows => len rows <? Int64.half
  | KColumnOrdering, CallColumnOrdering _ => true
  | _, _ => false
  end.

Fixpoint params_fit (c : Catalog) (ks : list kind) (ps : list call) : bool :=
  match ks, ps with
  | [], [] => true
  | k :: ks', p :: ps' => param_fits c k p && params_fit c ks' ps'
  | _, _ => false
  end.

(** A tree over the operator table: every node is an operator of the table
    that fits in the opcode byte, with the parameters and the number of
    inputs of that operator; [checkOp], the operator the decoder collects
    as a check, does not occur. *)
Fixpoint well_formed (ops : operatorTable) (checkOp : execOperator)
  (c : Catalog) (t : PlanTree) : bool :=
  match t with
  | PT op params inputs =>
      (0 <? op) && (op <? 256) && negb (op =? checkOp)
      && match ops op with
         | Some info =>
             params_fit c (layout info) params
             && Nat.eqb (List.length inputs) (arity info)
         | None => false
         end
      && forallb (well_formed ops checkOp c) inputs
  end.

(** What the hash is fed for a tree, in the same order. *)
Fixpoint hashed_records (t : PlanTree) : list byte :=
  match t with
  | PT op params inputs =>
      List.concat (map hashed_records inputs)
      ++ GoByte.of_Z op :: List.concat (map hashed params)
  end.

(** The field a decoder with catalog [c] is expected to rebuild from an
    encoded parameter: numbers, booleans and join types in full, a table or
    an index as the catalog knows it, a list as so many zero values. *)
Definition expected_arg (c : Catalog) (k : kind) (p : call) (tbl : option Table)
  : arg :=
  match k, p with
  | KInt, CallInt i => AInt i
  | KBool, CallBool b => ABool b
  | KJoinType, CallByte j => AJoinType j
  | KTable, CallDataSource id _ =>
      ATable match ResolveDataSourceByID c id with
             | inl (DSTable t) => Some t
             | _ => None
             end
  | KIndex, CallDataSource id _ =>
      AIndex match tbl with
             | Some t => findIndex id (TableIndexes t)
             | None => None
             end
  | KNodeColumnOrdinals, CallNodeColumnOrdinals vals =>
      ANodeColumnOrdinals (repeat zeroNodeColumnOrdinal (List.length vals))
  | KResultColumns, CallResultColumns vals =>
      AResultColumns (repeat zeroResultColumn (List.length vals))
  | KRows, CallRows rows => ARows (repeat zeroRow (List.length rows))
  | KColumnOrdering, _ => AColumnOrdering []
  | _, _ => ASchema
  end.

Fixpoint expected_args (c : Catalog) (ks : list kind) (ps : list call)
  (tbl : option Table) : list arg :=
  match ks, ps with
  | k :: ks', p :: ps' =>
      let a := expected_arg c k p tbl in
      a :: expected_args c ks' ps' (table_of a tbl)
  | _, _ => []
  end.

Definition layout_of (ops : operatorTable) (op : execOperator) : list kind :=
  match ops op with
  | Some info => layout info
  | None => []
  end.

(** The node expected for a tree. *)
Fixpoint expected_node (ops : operatorTable) (c : Catalog) (t : PlanTree) : Node :=
  match t with
  | PT op params inputs =>
      mkNode op (expected_args c (layout_of ops op) params None)
        (map (expected_node ops c) inputs)
  end.

(* ===================================================================== *)
(** ** Auxiliary definitions for the facts *)
(* ===================================================================== *)

(** Induction on a plan tree with the hypothesis on every input. *)
Section PlanTree_induction.

Variable P : PlanTree -> Prop.
Hypothesis step : forall op params inputs,
  Forall P inputs -> P (PT op params inputs).

Fixpoint PlanTree_nested_ind (t : PlanTree) : P t :=
  match t with
  | PT op params inputs =>
      @step op params inputs
        ((fix all (l : list PlanTree) : Forall P l :=
            match l with
            | [] => Forall_nil P
            | i :: l' => Forall_cons i (PlanTree_nested_ind i) (all l')
            end) inputs)
  end.

End PlanTree_induction.

(** The state a factory is in after its buffer and hash have grown. *)
Definition grown (f : PlanGistFactory) (written presented : list byte)
  : PlanGistFactory :=
  {| buffer := buffer f ++ written; hash := FNV64.fold (hash f) presented;
     nodeStack := nodeStack f; catalog := catalog f |}.

(** A factory with a given buffer and node stack. *)
Definition at_state (f : PlanGistFactory) (b : list byte) (s : list Node)
  : PlanGistFactory :=
  {| buffer := b; hash := hash f; nodeStack := s; catalog := catalog f |}.

(** A hash join of two scans under a sort. *)
Definition join_plan : PlanTree :=
  PT Ops.sortOp [CallColumnOrdering []]
    [PT Ops.hashJoinOp [CallByte x02; CallBool true; CallBool false]
       [Scenario.scan; PT Ops.scanOp [CallDataSource 9 "u"] []]].

(** A decode routine only reads: it never leaves more bytes in the buffer
    than it found. *)
Definition reads_only {A : Type} (m : M A) : Prop :=
  forall f, (List.length (buffer (snd (m f))) <= List.length (buffer f))%nat.

(** A check as the builder constructs it: a tree whose root is the check
    operator, over well-formed inputs. *)
Definition is_check (checkOp : execOperator) (t : PlanTree) : bool :=
  match t with
  | PT op _ _ => op =? checkOp
  end.

Definition check_tree (ops : operatorTable) (checkOp : execOperator)
  (c : Catalog) (t : PlanTree) : bool :=
  match t with
  | PT op params inputs =>
      (op =? checkOp) && (0 <? op) && (op <? 256)
      && match ops op with
         | Some info =>
             params_fit c (layout info) params
             && Nat.eqb (List.length inputs) (arity info)
         | None => false
         end
      && forallb (well_formed ops checkOp c) inputs
  end.

(** The trees constructed at top level, in the order of construction:
    checks, and the trees that stay on the stack (subqueries, then the
    root). *)
Definition top_level (ops : operatorTable) (checkOp : execOperator)
  (c : Catalog) (items : list PlanTree) : bool :=
  forallb (fun t => well_formed ops checkOp c t || check_tree ops checkOp c t) items.

Definition checks_of (checkOp : execOperator) (items : list PlanTree) : list PlanTree :=
  filter (is_check checkOp) items.

Definition operands_of (checkOp : execOperator) (items : list PlanTree) : list PlanTree :=
  filter (fun t => negb (is_check checkOp t)) items.

Definition add_checks (plan : Plan) (ns : list Node) : Plan :=
  {| Root := Root plan; Subqueries := Subqueries plan; Checks := Checks plan ++ ns |}.

(* ===================================================================== *)
(** ** Scan parameters *)
(* ===================================================================== *)

Section ScanParams.

(** [util.FastIntSet] and its codec are not under src/.  [Encode(w)] is
    taken as the chunks it hands to [w.Write], in order, and the error it
    returns; [Decode(buf)] as the set and error it returns and the bytes it
    leaves unread. *)
Variable FastIntSet : Type.
Variable FastIntSet_Encode : FastIntSet -> list (list byte) * option error.
Variable FastIntSet_Decode : list byte -> (FastIntSet * option error) * list byte.

(** The fields of [exec.ScanParams] the gist looks at.  A constraint is nil
    or has a number of spans. *)
Record ScanParams : Type := {
  NeededCols : FastIntSet;
  IndexConstraint : option Z;        (* nil, or Spans.Count() *)
  InvertedConstraint : option Z;     (* nil, or Len() *)
  HardLimit : Z
}.

Definition count_or_zero (n : option Z) : Z :=
  match n with
  | Some k => k
  | None => 0
  end.

(** The set is written through the factory itself ([Encode(f)]), so to the
    buffer and the hash alike; an error of [Encode] is a panic. *)
Definition encodeScanParams (params : ScanParams) : M unit := fun f =>
  let '(chunks, err) := FastIntSet_Encode (NeededCols params) in
  let f1 := fold_left (fun f data => Write data f) chunks f in
  match err with
  | Some e => (Panic (PanicError e), f1)
  | None =>
      let f2 := encodeInt (count_or_zero (IndexConstraint params)) f1 in
      let f3 := encodeInt (count_or_zero (InvertedConstraint params)) f2 in
      (Ok tt, encodeInt (HardLimit params) f3)
  end.

(** A positive span count gives back a constraint holding the one span
    appended to it; a positive length gives back that many zero spans. *)
Definition decodeScanParams : M ScanParams := fun f =>
  let '((neededCols, err), rest) := FastIntSet_Decode (buffer f) in
  let f1 := set_buffer f rest in
  match err with
  | Some e => (Panic (PanicError e), f1)
  | None =>
      (l <- decodeInt ;;
       let idxConstraint := if 0 <? l then Some 1 else None in
       l' <- decodeInt ;;
       let invertedConstraint := if 0 <? l' then Some l' else None in
       hardLimit <- decodeInt ;;
       ret {| NeededCols := neededCols;
              IndexConstraint := idxConstraint;
              InvertedConstraint := invertedConstraint;
              HardLimit := hardLimit |}) f1
  end.

(** The bytes of the scan parameters, when the set encodes to [chunks]. *)
Definition scan_params_bytes (chunks : list (list byte))
  (params : ScanParams) : list byte :=
  List.concat chunks
  ++ Binary.PutVarint (count_or_zero (IndexConstraint params))
  ++ Binary.PutVarint (count_or_zero (InvertedConstraint params))
  ++ Binary.PutVarint (HardLimit params).

End ScanParams.

(** The call came to a result of the Go function: a return or a panic. *)
Definition finished (o : outcome) : bool :=
  match o with
  | OutOfFuel => false
  | _ => true
  end.

(** A continuation byte of a varint: the high bit is set. *)
Definition is_continuation (b : byte) : bool := 0x80 <=? GoByte.to_Z b.

(** More sample data for the facts. *)
Module Samples.

(** A table with two indexes of id 2. *)
Definition indexed : Table :=
  {| TableID := 5; TableName := "t";
     TableIndexes := [{| IndexID := 1; IndexName := "primary" |};
                      {| IndexID := 2; IndexName := "a" |};
                      {| IndexID := 2; IndexName := "b" |}] |}.

(** A catalog in which every id names a view. *)
Definition views : Catalog :=
  {| ResolveDataSourceByID := fun id => inl (DSView id "v") |}.

(** A subquery, a check and the root, in the order of construction, and
    the plan they decode to. *)
Definition check : PlanTree := PT Ops.errorIfRowsOp [] [Scenario.scan].

Definition forest : list PlanTree := [Scenario.scan; check; Scenario.plan].

Definition decoded : Plan :=
  {| Root := Some (expected_node Ops.table Scenario.cat Scenario.plan);
     Subqueries := [{| SubqueryRoot := expected_node Ops.table Scenario.cat Scenario.scan |}];
     Checks := [expected_node Ops.table Scenario.cat check] |}.

(** A stand-in for the codec of [util.FastIntSet]: the set is a byte. *)
Definition set_Encode (s : byte) : list (list byte) * option error := ([[s]], None).

Definition set_Decode (buf : list byte) : (byte * option error) * list byte :=
  match buf with
  | [] => ((x00, Some EOF), [])
  | b :: rest => ((b, None), rest)
  end.

Definition scan_params : ScanParams byte :=
  {| NeededCols := x07; IndexConstraint := Some 3; InvertedConstraint := None;
     HardLimit := 10 |}.

End Samples.

(* ===================================================================== *)
(** * Facts *)
(* ===================================================================== *)

Unset Implicit Arguments.

(** ** Bytes and machine integers *)

Module GoByteFacts.

Import GoByte.

Lemma to_Z_range (b : byte) : 0 <= to_Z b < 256.
Proof.
  unfold to_Z. pose proof (Byte.to_N_bounded b) as Hb.
  split; [apply N2Z.is_nonneg|].
  apply N.le_lteq in Hb. lia.
Qed.

Lemma to_of_Z (z : Z) : to_Z (of_Z z) = z mod 256.
Proof.
  unfold to_Z, of_Z.
  assert (Hr : 0 <= z mod 256 < 256) by (apply Z.mod_pos_bound; lia).
  destruct (Byte.of_N (Z.to_N (z mod 256))) as [b|] eqn:E.
  - apply Byte.to_of_N in E. rewrite E. rewrite Z2N.id; lia.
  - apply Byte.of_N_None_iff in E. lia.
Qed.

Lemma of_to_Z (b : byte) : of_Z (to_Z b) = b.
Proof.
  unfold of_Z. rewrite Z.mod_small by apply to_Z_range.
  unfold to_Z. rewrite N2Z.id, Byte.of_to_N. reflexivity.
Qed.

Lemma to_Z_inj (a b : byte) : to_Z a = to_Z b -> a = b.
Proof.
  intros H. rewrite <- (of_to_Z a), <- (of_to_Z b), H. reflexivity.
Qed.


End GoByteFacts.

Module Int64Facts.

Import Int64.

Lemma wrap_range z : is_uint64 (wrap z).
Proof. unfold is_uint64, wrap, modulus. apply Z.mod_pos_bound. lia. Qed.

Lemma to_signed_unsigned x : is_int64 x -> to_signed (to_unsigned x) = x.
Proof.
  unfold is_int64, to_signed, to_unsigned, modulus, half. intros H.
  destruct (Z_lt_le_dec x 0).
  - replace (x mod 2 ^ 64) with (x + 2 ^ 64).
    + destruct (Z.ltb_spec (x + 2 ^ 64) (2 ^ 63)); lia.
    + apply Z.mod_unique with (q := -1); lia.
  - rewrite Z.mod_small by lia.
    destruct (Z.ltb_spec x (2 ^ 63)); lia.
Qed.


End Int64Facts.


(* ===================================================================== *)
(** ** Varint lemmas *)
(* ===================================================================== *)

Module BinaryFacts.

Import GoByte GoByteFacts Binary.

Lemma PutUvarint_unfold (x : Z) :
  PutUvarint x =
    if Z_le_dec 0x80 x
    then byte_or (of_Z x) x80 :: PutUvarint (Z.shiftr x 7)
    else [of_Z x].
Proof.
  rewrite PutUvarint_equation_1.
  destruct (Z_le_dec 128 x); reflexivity.
Qed.

Lemma byte_or_x80 (b : byte) : to_Z (byte_or b x80) = to_Z b mod 128 + 128.
Proof. destruct b; reflexivity. Qed.

Lemma byte_and_x7f (b : byte) : Z.land (to_Z b) 0x7f = to_Z b mod 128.
Proof. change 0x7f with (Z.ones 7). rewrite Z.land_ones by lia. reflexivity. Qed.

Lemma mod_256_128 (x : Z) : (x mod 256) mod 128 = x mod 128.
Proof.
  pose proof (Z.div_mod x 256). pose proof (Z.mod_pos_bound x 256).
  pose proof (Z.div_mod (x mod 256) 128).
  pose proof (Z.mod_pos_bound (x mod 256) 128).
  apply Z.mod_unique with (q := 2 * (x / 256) + (x mod 256) / 128); lia.
Qed.

(** Or-ing in a group above the bits already there is an addition. *)
Lemma lor_above (acc y s : Z) :
  0 <= s -> 0 <= acc < 2 ^ s -> 0 <= y ->
  Z.lor acc (y * 2 ^ s) = acc + y * 2 ^ s.
Proof.
  intros Hs Hacc Hy.
  assert (Hland : Z.land acc (y * 2 ^ s) = 0).
  { apply Z.bits_inj'. intros n Hn.
    rewrite Z.land_spec, Z.bits_0.
    destruct (Z_lt_le_dec n s) as [Hlt|Hge].
    - rewrite Z.mul_pow2_bits_low by lia. apply andb_false_r.
    - rewrite <- (Z.mod_small acc (2 ^ s)) by lia.
      rewrite Z.mod_pow2_bits_high by lia. reflexivity. }
  rewrite <- Z.lxor_lor by exact Hland.
  symmetry. apply Z.add_nocarry_lxor. exact Hland.
Qed.

Lemma ReadUvarint_loop_Put (left : nat) :
  forall x acc s rest,
    0 <= x -> 0 <= acc < 2 ^ s ->
    s = 7 * (10 - Z.of_nat left) -> (1 <= left <= 10)%nat ->
    acc + x * 2 ^ s < 2 ^ 64 ->
    ReadUvarint_loop left acc s (PutUvarint x ++ rest)
    = ((acc + x * 2 ^ s, None), rest).
Proof.
  induction left as [|l IH]; intros x acc s rest Hx Hacc Hs Hl Hfit; [lia|].
  assert (Hs0 : 0 <= s) by lia.
  assert (Hp : 0 < 2 ^ s) by (apply Z.pow_pos_nonneg; lia).
  rewrite PutUvarint_unfold.
  destruct (Z_le_dec 128 x) as [Hbig|Hsmall].
  - (* a continuation byte *)
    cbn [app ReadUvarint_loop].
    rewrite byte_or_x80, to_of_Z, mod_256_128.
    pose proof (Z.mod_pos_bound x 128 ltac:(lia)) as Hm.
    destruct (Z.ltb_spec (x mod 128 + 128) 128) as [Hc|_]; [lia|].
    assert (Hl1 : (1 <= l)%nat).
    { destruct l; [|lia]. exfalso.
      replace s with 63 in * by lia. lia. }
    assert (Hgrp : Z.land (x mod 128 + 128) 127 = x mod 128).
    { change 127 with (Z.ones 7). rewrite Z.land_ones by lia.
      change (2 ^ 7) with 128.
      rewrite <- (Z.mul_1_l 128) at 2. rewrite Z.mod_add by lia.
      apply Z.mod_mod. lia. }
    rewrite Hgrp, Z.shiftl_mul_pow2 by lia.
    assert (Hdm : x = 128 * (x / 128) + x mod 128) by (apply Z.div_mod; lia).
    assert (Hq : 0 <= x / 128) by (apply Z.div_pos; lia).
    assert (Hle : x mod 128 * 2 ^ s <= x * 2 ^ s) by nia.
    unfold Int64.wrap, Int64.modulus. rewrite Z.mod_small by nia.
    rewrite lor_above by lia.
    rewrite IH.
    + f_equal. f_equal. rewrite Z.shiftr_div_pow2 by lia.
      change (2 ^ 7) with 128. rewrite Z.pow_add_r by lia.
      change (2 ^ 7) with 128. nia.
    + rewrite Z.shiftr_div_pow2 by lia. exact Hq.
    + rewrite Z.pow_add_r by lia. change (2 ^ 7) with 128. nia.
    + lia.
    + lia.
    + rewrite Z.shiftr_div_pow2 by lia.
      change (2 ^ 7) with 128. rewrite Z.pow_add_r by lia.
      change (2 ^ 7) with 128. nia.
  - (* the last byte *)
    cbn [app ReadUvarint_loop].
    rewrite to_of_Z, Z.mod_small by lia.
    destruct (Z.ltb_spec x 128) as [_|Hc]; [|lia].
    assert (Hov : Nat.eqb l 0 && (1 <? x) = false).
    { destruct l; cbn; [|reflexivity].
      destruct (Z.ltb_spec 1 x) as [H1|_]; [|reflexivity]. exfalso.
      replace s with 63 in * by lia. lia. }
    rewrite Hov, Z.shiftl_mul_pow2 by lia.
    unfold Int64.wrap, Int64.modulus. rewrite Z.mod_small by nia.
    rewrite lor_above by lia. reflexivity.
Qed.

(** Reading back what [PutUvarint] wrote gives the value and leaves the
    bytes that follow untouched. *)
Lemma ReadUvarint_PutUvarint (x : Z) (rest : list byte) :
  Int64.is_uint64 x ->
  ReadUvarint (PutUvarint x ++ rest) = ((x, None), rest).
Proof.
  unfold Int64.is_uint64, Int64.modulus. intros Hx.
  unfold ReadUvarint, MaxVarintLen64.
  rewrite ReadUvarint_loop_Put; cbn; try lia.
  f_equal. f_equal. lia.
Qed.

Lemma zigzag_range (x : Z) : Int64.is_int64 x -> Int64.is_uint64 (zigzag x).
Proof.
  unfold zigzag. intros Hx.
  pose proof (Int64Facts.wrap_range (Z.shiftl (Int64.to_unsigned x) 1)) as Hw.
  revert Hw. generalize (Int64.wrap (Z.shiftl (Int64.to_unsigned x) 1)).
  unfold Int64.is_uint64, Int64.unot, Int64.modulus. intros u Hu.
  destruct (x <? 0); lia.
Qed.

Lemma zigzag_nonneg (x : Z) : 0 <= x < Int64.half -> zigzag x = 2 * x.
Proof.
  unfold zigzag, Int64.wrap, Int64.to_unsigned, Int64.modulus, Int64.half.
  intros Hx. destruct (Z.ltb_spec x 0); [lia|].
  rewrite (Z.mod_small x) by lia.
  rewrite Z.shiftl_mul_pow2 by lia. change (2 ^ 1) with 2.
  rewrite Z.mod_small by lia. lia.
Qed.

Lemma zigzag_neg (x : Z) : - Int64.half <= x < 0 -> zigzag x = - 2 * x - 1.
Proof.
  unfold zigzag, Int64.wrap, Int64.to_unsigned, Int64.unot, Int64.modulus, Int64.half.
  intros Hx. destruct (Z.ltb_spec x 0); [|lia].
  assert (E1 : x mod 2 ^ 64 = x + 2 ^ 64).
  { symmetry. apply Z.mod_unique with (q := -1); lia. }
  rewrite E1, Z.shiftl_mul_pow2 by lia. change (2 ^ 1) with 2.
  assert (E2 : ((x + 2 ^ 64) * 2) mod 2 ^ 64 = 2 * x + 2 ^ 64).
  { symmetry. apply Z.mod_unique with (q := 1); lia. }
  rewrite E2. lia.
Qed.

Lemma unzigzag_zigzag (x : Z) : Int64.is_int64 x -> unzigzag (zigzag x) = x.
Proof.
  unfold Int64.is_int64. intros Hx.
  destruct (Z_lt_le_dec x 0) as [Hneg|Hpos].
  - rewrite zigzag_neg by lia. unfold unzigzag.
    change 1 with (Z.ones 1) at 2. rewrite Z.land_ones by lia.
    change (2 ^ 1) with 2.
    replace ((- 2 * x - 1) mod 2) with 1
      by (apply Z.mod_unique with (q := - x - 1); lia).
    cbn [Z.eqb negb].
    rewrite Z.shiftr_div_pow2 by lia. change (2 ^ 1) with 2.
    replace ((- 2 * x - 1) / 2) with (- x - 1)
      by (apply Z.div_unique with (r := 1); lia).
    unfold Int64.to_signed, Int64.snot, Int64.half, Int64.modulus in *.
    destruct (Z.ltb_spec (- x - 1) (2 ^ 63)); lia.
  - rewrite zigzag_nonneg by lia. unfold unzigzag.
    change 1 with (Z.ones 1) at 1. rewrite Z.land_ones by lia.
    change (2 ^ 1) with 2.
    replace ((2 * x) mod 2) with 0
      by (apply Z.mod_unique with (q := x); lia).
    cbn [Z.eqb negb].
    rewrite Z.shiftr_div_pow2 by lia. change (2 ^ 1) with 2.
    replace (2 * x / 2) with x
      by (apply Z.div_unique with (r := 0); lia).
    unfold Int64.to_signed, Int64.half, Int64.modulus in *.
    destruct (Z.ltb_spec x (2 ^ 63)); lia.
Qed.

(** The int round trip every decode primitive rests on. *)
Lemma ReadVarint_PutVarint (x : Z) (rest : list byte) :
  Int64.is_int64 x ->
  ReadVarint (PutVarint x ++ rest) = ((x, None), rest).
Proof.
  intros Hx. unfold ReadVarint, PutVarint.
  rewrite ReadUvarint_PutUvarint by (apply zigzag_range; exact Hx).
  rewrite unzigzag_zigzag by exact Hx. reflexivity.
Qed.

End BinaryFacts.

(** ** Worked values *)

Example PutVarint_1 : Binary.PutVarint 1 = [x02].
Proof. reflexivity. Qed.
Example PutVarint_5 : Binary.PutVarint 5 = [x0a].
Proof. reflexivity. Qed.
Example PutVarint_m1 : Binary.PutVarint (-1) = [x01].
Proof. reflexivity. Qed.
Example PutVarint_300 : Binary.PutVarint 300 = [xd8; x04].
Proof. reflexivity. Qed.
Example PutVarint_min : List.length (Binary.PutVarint (- 2 ^ 63)) = 10%nat.
Proof. vm_compute. reflexivity. Qed.
Example ReadVarint_300 : Binary.ReadVarint [xd8; x04; xff] = ((300, None), [xff]).
Proof. reflexivity. Qed.

Example base64_Man : Base64.EncodeToString [x4d; x61; x6e] = "TWFu"%string.
Proof. reflexivity. Qed.
Example base64_Ma : Base64.EncodeToString [x4d; x61] = "TWE="%string.
Proof. reflexivity. Qed.
Example base64_M : Base64.EncodeToString [x4d] = "TQ=="%string.
Proof. reflexivity. Qed.

Example NewPlanGistFactory_buffer : buffer NewPlanGistFactory = [x02].
Proof. reflexivity. Qed.
Example NewPlanGistFactory_gist : gist (getPlanGist NewPlanGistFactory) = "Ag=="%string.
Proof. reflexivity. Qed.

Example scenario_buffer : buffer Scenario.encoded = [x02; x01; x0a; x11].
Proof. reflexivity. Qed.

Example scenario_decode :
  DecodePlanGistToPlan (decodeOperatorBody Ops.table) Ops.errorIfRowsOp catchErrorValues
    (inl (buffer Scenario.encoded)) (Some Scenario.cat)
  = Returned
      (Some {| Root := Some (mkNode Ops.sortOp [AColumnOrdering []]
                               [mkNode Ops.scanOp [ATable (Some Scenario.t)] []]);
               Subqueries := []; Checks := [] |})
      None.
Proof. reflexivity. Qed.

(* ===================================================================== *)
(** ** The write path: buffer and hash of a session *)
(* ===================================================================== *)

Lemma fold_app (h : Z) (a b : list byte) :
  FNV64.fold h (a ++ b) = FNV64.fold (FNV64.fold h a) b.
Proof. unfold FNV64.fold. apply fold_left_app. Qed.

Lemma factory_eta (f : PlanGistFactory) :
  {| buffer := buffer f; hash := hash f; nodeStack := nodeStack f; catalog := catalog f |} = f.
Proof. destruct f; reflexivity. Qed.

Lemma Write_spec (data : list byte) (f : PlanGistFactory) :
  Write data f =
    {| buffer := buffer f ++ data; hash := FNV64.fold (hash f) data;
       nodeStack := nodeStack f; catalog := catalog f |}.
Proof. reflexivity. Qed.

Lemma encodeDataSource_spec (id : Z) (name : string) (f : PlanGistFactory) :
  encodeDataSource id name f =
    {| buffer := buffer f ++ Binary.PutVarint (Int64.to_signed id);
       hash := FNV64.fold (hash f) (list_byte_of_string name);
       nodeStack := nodeStack f; catalog := catalog f |}.
Proof. reflexivity. Qed.

(** Every primitive but the data-source one goes through [Write] with the
    bytes listed by [buffered]. *)
Lemma exec_call_Write (c : call) (f : PlanGistFactory) :
  is_data_source c = false -> exec_call c f = Write (buffered c) f.
Proof.
  destruct c; cbn; intros Hc; try reflexivity; try discriminate.
  - destruct b; reflexivity.
  - rewrite Write_spec. cbn. rewrite app_nil_r. symmetry. apply factory_eta.
Qed.

Lemma exec_call_spec (c : call) (f : PlanGistFactory) :
  exec_call c f =
    {| buffer := buffer f ++ buffered c; hash := FNV64.fold (hash f) (hashed c);
       nodeStack := nodeStack f; catalog := catalog f |}.
Proof.
  destruct (is_data_source c) eqn:E.
  - destruct c; try discriminate. reflexivity.
  - rewrite exec_call_Write by exact E.
    destruct c; try discriminate; reflexivity.
Qed.

Lemma run_spec (calls : list call) (f : PlanGistFactory) :
  run calls f =
    {| buffer := buffer f ++ List.concat (map buffered calls);
       hash := FNV64.fold (hash f) (List.concat (map hashed calls));
       nodeStack := nodeStack f; catalog := catalog f |}.
Proof.
  revert f. induction calls as [|c calls IH]; intros f.
  - cbn. rewrite app_nil_r. symmetry. apply factory_eta.
  - cbn [run fold_left]. fold (run calls (exec_call c f)).
    rewrite IH, exec_call_spec. cbn [buffer hash nodeStack catalog map List.concat].
    rewrite <- app_assoc, fold_app. reflexivity.
Qed.

Lemma NewPlanGistFactory_spec :
  NewPlanGistFactory =
    {| buffer := Binary.PutVarint version;
       hash := FNV64.fold FNV64.Init (Binary.PutVarint version);
       nodeStack := []; catalog := None |}.
Proof. reflexivity. Qed.

Lemma hashed_same_but_id (c1 c2 : call) : same_but_id c1 c2 -> hashed c1 = hashed c2.
Proof.
  destruct c1, c2; cbn; intros H; try contradiction; try discriminate;
    try (inversion H; subst; reflexivity).
Qed.

Lemma hashed_session_same_but_id (calls1 calls2 : list call) :
  Forall2 same_but_id calls1 calls2 ->
  List.concat (map hashed calls1) = List.concat (map hashed calls2).
Proof.
  induction 1 as [|c1 c2 l1 l2 Hc _ IH]; [reflexivity|].
  cbn. rewrite IH, (hashed_same_but_id _ _ Hc). reflexivity.
Qed.

(** C1.  Two encoding sessions whose calls agree except for the numeric id
    passed to [encodeDataSource] (the names being the same) end with the
    same [PlanGist] hash.  The reason is [encodeDataSource] itself: it
    appends the varint of the id to the buffer and nothing else, and feeds
    the bytes of the name to the hash and nothing else. *)
Theorem hash_is_stable_across_ids (calls1 calls2 : list call) :
  Forall2 same_but_id calls1 calls2 ->
  PlanGist_Hash (getPlanGist (run calls1 NewPlanGistFactory))
  = PlanGist_Hash (getPlanGist (run calls2 NewPlanGistFactory))
  /\ (forall id name f,
        buffer (encodeDataSource id name f)
        = buffer f ++ Binary.PutVarint (Int64.to_signed id)
        /\ hash (encodeDataSource id name f)
           = FNV64.fold (hash f) (list_byte_of_string name)).
Proof.
  intros H. split.
  - unfold PlanGist_Hash, getPlanGist. cbn [gist_hash]. f_equal.
    rewrite !run_spec. cbn [hash].
    rewrite (hashed_session_same_but_id _ _ H). reflexivity.
  - intros id name f. rewrite encodeDataSource_spec. split; reflexivity.
Qed.

(** The table "orders" under id 52 in one database and id 77 in another:
    one hash, two gists. *)
Lemma hash_is_stable_across_ids_witness :
  PlanGist_Hash (getPlanGist (run [CallOperator 1; CallDataSource 52 "orders"] NewPlanGistFactory))
  = PlanGist_Hash (getPlanGist (run [CallOperator 1; CallDataSource 77 "orders"] NewPlanGistFactory))
  /\ PlanGist_String (getPlanGist (run [CallOperator 1; CallDataSource 52 "orders"] NewPlanGistFactory))
     = "AgFo"%string
  /\ PlanGist_String (getPlanGist (run [CallOperator 1; CallDataSource 77 "orders"] NewPlanGistFactory))
     = "AgGaAQ=="%string.
Proof.
  split; [|split; reflexivity].
  apply (hash_is_stable_across_ids
           [CallOperator 1; CallDataSource 52 "orders"]
           [CallOperator 1; CallDataSource 77 "orders"]).
  repeat constructor.
Defined.

(** C6.  Throughout a session the hash accumulator is the incremental
    FNV64 hash, from the initial state, of the bytes presented to the
    writer so far (the version varint, then what each call presents), and
    the buffer holds the version varint and what each call appends.  Every
    primitive except [encodeDataSource] goes through [Write] and presents
    to the hash the very bytes it appends, so that in a session without
    data-source calls the hash is the hash of the buffer. *)
Theorem hash_follows_the_writer (calls : list call) :
  let f := run calls NewPlanGistFactory in
  hash f = FNV64.fold FNV64.Init
             (Binary.PutVarint version ++ List.concat (map hashed calls))
  /\ buffer f = Binary.PutVarint version ++ List.concat (map buffered calls)
  /\ (forall c g, is_data_source c = false ->
        exec_call c g = Write (buffered c) g /\ hashed c = buffered c)
  /\ (existsb is_data_source calls = false ->
        hash f = FNV64.fold FNV64.Init (buffer f)).
Proof.
  cbv zeta. rewrite run_spec, NewPlanGistFactory_spec. cbn [buffer hash].
  split; [|split; [|split]].
  - rewrite fold_app. reflexivity.
  - reflexivity.
  - intros c g Hc. split; [apply exec_call_Write; exact Hc|].
    destruct c; try discriminate; reflexivity.
  - intros Hnone. rewrite fold_app. f_equal.
    induction calls as [|c calls IH]; [reflexivity|].
    cbn in Hnone. apply orb_false_iff in Hnone. destruct Hnone as [Hc Hrest].
    cbn [map List.concat]. rewrite (IH Hrest).
    destruct c; try discriminate; reflexivity.
Qed.

(** A session of symmetric calls: the hash is the hash of the buffer. *)
Lemma hash_follows_the_writer_witness :
  hash (run [CallOperator 17; CallInt 300; CallBool true; CallRows [["1"%string]]]
          NewPlanGistFactory)
  = FNV64.fold FNV64.Init
      (buffer (run [CallOperator 17; CallInt 300; CallBool true; CallRows [["1"%string]]]
                 NewPlanGistFactory)).
Proof.
  apply (hash_follows_the_writer
           [CallOperator 17; CallInt 300; CallBool true; CallRows [["1"%string]]]).
  reflexivity.
Defined.

(** With a data-source call the two part ways: the buffer has the id, the
    hash has the name. *)
Example hash_is_not_the_hash_of_the_buffer :
  (hash (run [CallDataSource 5 "t"] NewPlanGistFactory)
   =? FNV64.fold FNV64.Init (buffer (run [CallDataSource 5 "t"] NewPlanGistFactory)))
  = false.
Proof. vm_compute. reflexivity. Qed.

(* ===================================================================== *)
(** ** Initialisation *)
(* ===================================================================== *)

(** C8.  [init] panics exactly when the operator count is not 57; with 57
    operators it returns normally. *)
Theorem init_panics_iff_count_differs (numOperators : Z) :
  ((exists r, init numOperators = Panic r) <-> numOperators <> 57)
  /\ init 57 = Ok tt.
Proof.
  unfold init. split; [|reflexivity].
  destruct (Z.eqb_spec numOperators 57) as [E|N]; cbn.
  - split; [intros [r Hr]; discriminate | intros H; contradiction].
  - split; [intros _; exact N | intros _; eexists; reflexivity].
Qed.

(* ===================================================================== *)
(** ** The read path: each decode primitive against its encode primitive *)
(* ===================================================================== *)

Lemma decodeInt_PutVarint (x : Z) (rest : list byte) (f : PlanGistFactory) :
  Int64.is_int64 x ->
  decodeInt (set_buffer f (Binary.PutVarint x ++ rest)) = (Ok x, set_buffer f rest).
Proof.
  intros Hx. unfold decodeInt. cbn [buffer set_buffer].
  rewrite BinaryFacts.ReadVarint_PutVarint by exact Hx.
  reflexivity.
Qed.

Lemma len_is_int64 {A : Type} (l : list A) : len l < Int64.half -> Int64.is_int64 (len l).
Proof. unfold Int64.is_int64, Int64.half, len. lia. Qed.

Lemma make_len {A : Type} (zero : A) (l : list A) (f : PlanGistFactory) :
  make zero (len l) f = (Ok (repeat zero (List.length l)), f).
Proof.
  unfold make, len.
  destruct (Z.ltb_spec (Z.of_nat (List.length l)) 0) as [H|_]; [lia|].
  rewrite Nat2Z.id. reflexivity.
Qed.

Lemma decode_count {A : Type} (zero : A) (l : list A) (rest : list byte)
  (f : PlanGistFactory) :
  len l < Int64.half ->
  (n <- decodeInt ;; make zero n) (set_buffer f (Binary.PutVarint (len l) ++ rest))
  = (Ok (repeat zero (List.length l)), set_buffer f rest).
Proof.
  intros Hl. unfold bind.
  rewrite decodeInt_PutVarint by (apply len_is_int64; exact Hl).
  apply make_len.
Qed.

Lemma encode_count_spec {A : Type} (l : list A) (f : PlanGistFactory) :
  buffer (encodeInt (len l) f) = buffer f ++ Binary.PutVarint (len l)
  /\ hash (encodeInt (len l) f) = FNV64.fold (hash f) (Binary.PutVarint (len l)).
Proof. unfold encodeInt. rewrite Write_spec. split; reflexivity. Qed.

Lemma decode_count_written {A : Type} (zero : A) (l : list A) (rest : list byte)
  (g : PlanGistFactory) :
  len l < Int64.half ->
  buffer g = [] ->
  (n <- decodeInt ;; make zero n) (buffer_Write rest (encodeInt (len l) g))
  = (Ok (repeat zero (List.length l)), set_buffer (encodeInt (len l) g) rest).
Proof.
  intros Hl Hg.
  assert (H : buffer (encodeInt (len l) g) = Binary.PutVarint (len l))
    by (unfold encodeInt; rewrite Write_spec; cbn [buffer]; rewrite Hg; reflexivity).
  unfold buffer_Write. rewrite H. apply decode_count. exact Hl.
Qed.

(** C9.  The three list-valued parameters (node column ordinals, result
    columns, rows of literals) are encoded by their length alone.  Each
    encoder appends to the buffer the varint of the length and nothing
    else, and feeds the hash those same bytes and nothing else, so that two
    lists of one length leave the factory, buffer and hash, in one and the
    same state whatever their elements.  The paired decoder, reading the
    buffer the encoder wrote, followed by anything, consumes that varint
    and returns as many zero values as the list had elements. *)
Theorem lists_are_encoded_by_count
  (vals1 vals2 : list NodeColumnOrdinal) (cols1 cols2 : list ResultColumn)
  (rows1 rows2 : list (list TypedExpr)) (f g : PlanGistFactory) (rest : list byte) :
  List.length vals1 = List.length vals2 ->
  List.length cols1 = List.length cols2 ->
  List.length rows1 = List.length rows2 ->
  len vals1 < Int64.half -> len cols1 < Int64.half -> len rows1 < Int64.half ->
  buffer g = [] ->
  (buffer (encodeNodeColumnOrdinals vals1 f)
   = buffer f ++ Binary.PutVarint (len vals1)
   /\ hash (encodeNodeColumnOrdinals vals1 f)
      = FNV64.fold (hash f) (Binary.PutVarint (len vals1))
   /\ encodeNodeColumnOrdinals vals1 f = encodeNodeColumnOrdinals vals2 f
   /\ decodeNodeColumnOrdinals (buffer_Write rest (encodeNodeColumnOrdinals vals1 g))
      = (Ok (repeat zeroNodeColumnOrdinal (List.length vals1)),
         set_buffer (encodeNodeColumnOrdinals vals1 g) rest))
  /\ (buffer (encodeResultColumns cols1 f)
      = buffer f ++ Binary.PutVarint (len cols1)
      /\ hash (encodeResultColumns cols1 f)
         = FNV64.fold (hash f) (Binary.PutVarint (len cols1))
      /\ encodeResultColumns cols1 f = encodeResultColumns cols2 f
      /\ decodeResultColumns (buffer_Write rest (encodeResultColumns cols1 g))
         = (Ok (repeat zeroResultColumn (List.length cols1)),
            set_buffer (encodeResultColumns cols1 g) rest))
  /\ (buffer (encodeRows rows1 f)
      = buffer f ++ Binary.PutVarint (len rows1)
      /\ hash (encodeRows rows1 f)
         = FNV64.fold (hash f) (Binary.PutVarint (len rows1))
      /\ encodeRows rows1 f = encodeRows rows2 f
      /\ decodeRows (buffer_Write rest (encodeRows rows1 g))
         = (Ok (repeat zeroRow (List.length rows1)),
            set_buffer (encodeRows rows1 g) rest)).
Proof.
  intros Hv Hc Hr Bv Bc Br Hg.
  unfold encodeNodeColumnOrdinals, encodeResultColumns, encodeRows.
  unfold decodeNodeColumnOrdinals, decodeResultColumns, decodeRows.
  assert (Ev : len vals2 = len vals1) by (unfold len; rewrite Hv; reflexivity).
  assert (Ec : len cols2 = len cols1) by (unfold len; rewrite Hc; reflexivity).
  assert (Er : len rows2 = len rows1) by (unfold len; rewrite Hr; reflexivity).
  rewrite Ev, Ec, Er.
  split; [|split].
  - destruct (encode_count_spec vals1 f) as [Hb Hh].
    split; [exact Hb|]. split; [exact Hh|]. split; [reflexivity|].
    apply (decode_count_written zeroNodeColumnOrdinal vals1 rest g Bv Hg).
  - destruct (encode_count_spec cols1 f) as [Hb Hh].
    split; [exact Hb|]. split; [exact Hh|]. split; [reflexivity|].
    apply (decode_count_written zeroResultColumn cols1 rest g Bc Hg).
  - destruct (encode_count_spec rows1 f) as [Hb Hh].
    split; [exact Hb|]. split; [exact Hh|]. split; [reflexivity|].
    apply (decode_count_written zeroRow rows1 rest g Br Hg).
Qed.

(** Lists of lengths 2, 1 and 3 with unrelated contents: the rows add the
    one byte 0x06 to the buffer, and come back as three empty rows. *)
Lemma lists_are_encoded_by_count_witness :
  buffer (encodeRows [["1"; "2"]; ["3"]; []]%string NewPlanGistFactory) = [x02; x06]
  /\ encodeRows [["1"; "2"]; ["3"]; []]%string NewPlanGistFactory
     = encodeRows [[]; []; ["x"]]%string NewPlanGistFactory
  /\ decodeRows (buffer_Write [xff]
                   (encodeRows [["1"; "2"]; ["3"]; []]%string (decodeFactory [] None)))
     = (Ok [[]; []; []],
        set_buffer (encodeRows [["1"; "2"]; ["3"]; []]%string (decodeFactory [] None))
          [xff])
  /\ decodeNodeColumnOrdinals
       (buffer_Write [xff] (encodeNodeColumnOrdinals [4; 7] (decodeFactory [] None)))
     = (Ok [0; 0],
        set_buffer (encodeNodeColumnOrdinals [4; 7] (decodeFactory [] None)) [xff]).
Proof.
  pose proof (lists_are_encoded_by_count
                [4; 7] [0; 1]
                [{| ColName := "a"; ColHidden := true |}] [zeroResultColumn]
                [["1"; "2"]; ["3"]; []]%string [[]; []; ["x"]]%string
                NewPlanGistFactory (decodeFactory [] None) [xff]
                eq_refl eq_refl eq_refl eq_refl eq_refl eq_refl eq_refl)
    as [[_ [_ [_ Hv]]] [_ [Hb [_ [He Hd]]]]].
  split; [exact Hb|]. split; [exact He|]. split; [exact Hd | exact Hv].
Defined.

(* ===================================================================== *)
(** ** The decoder: version gate and fault handling *)
(* ===================================================================== *)

Lemma ReadUvarint_loop_app (n : nat) :
  forall x s pre u r rest,
    Binary.ReadUvarint_loop n x s pre = ((u, None), r) ->
    Binary.ReadUvarint_loop n x s (pre ++ rest) = ((u, None), r ++ rest).
Proof.
  induction n as [|n IH]; intros x s pre u r rest H; cbn in H; [discriminate|].
  destruct pre as [|b pre]; [discriminate|].
  cbn [app Binary.ReadUvarint_loop].
  destruct (GoByte.to_Z b <? 128).
  - destruct (Nat.eqb n 0 && (1 <? GoByte.to_Z b)); [discriminate|].
    inversion H; subst. reflexivity.
  - apply IH. exact H.
Qed.

(** A varint read in full from a prefix is read the same with anything
    after it, and what is after it stays unread. *)
Lemma ReadVarint_app (pre rest : list byte) (v : Z) :
  Binary.ReadVarint pre = ((v, None), []) ->
  Binary.ReadVarint (pre ++ rest) = ((v, None), rest).
Proof.
  unfold Binary.ReadVarint, Binary.ReadUvarint. intros H.
  destruct (Binary.ReadUvarint_loop Binary.MaxVarintLen64 0 0 pre)
    as [[u [e|]] r] eqn:E; [discriminate|].
  inversion H; subst.
  rewrite (ReadUvarint_loop_app _ _ _ _ _ _ rest E). reflexivity.
Qed.

Section DecoderFacts.

Variable D : execOperator -> M (Node + error).
Variable checkOp : execOperator.
Variable SC : panic_value -> option error.

(** C3.  When the varint at the head of the buffer is read in full and is
    not [version], [DecodePlanGistToPlan] returns the error "unsupported old
    plan gist version" with a nil plan: it does not panic, the answer is the
    same whatever follows the varint and whatever the operator decoders
    would do, and the bytes after the varint are still unread in the buffer
    and the node stack is still empty when it returns. *)
Theorem version_mismatch_is_reported_at_once
  (pre rest : list byte) (v : Z) (cat : option Catalog) :
  Binary.ReadVarint pre = ((v, None), []) ->
  v <> version ->
  runDecode D checkOp SC (inl (pre ++ rest)) cat
  = (Returned None (Some (ErrUnsupportedVersion v)),
     set_buffer (decodeFactory [] cat) rest).
Proof.
  intros Hread Hv. unfold runDecode, decodeBody, decodeInt, decodeFactory.
  cbn [buffer set_buffer buffer_Write set_catalog app].
  rewrite (ReadVarint_app pre rest v Hread).
  destruct (Z.eqb_spec v version) as [E|_]; [contradiction|].
  reflexivity.
Qed.

Lemma decodeBody_version_only (pre : list byte) (plan : Plan)
  (cat : option Catalog) (fuel : nat) :
  Binary.ReadVarint pre = ((version, None), []) ->
  decodeBody D checkOp (S fuel) plan (decodeFactory pre cat)
  = (BodyPanic (PanicRuntime (IndexOutOfRange (-1) 0)), plan,
     decodeFactory [] cat).
Proof.
  intros Hread. unfold decodeBody, decodeInt, decodeFactory.
  cbn [buffer set_buffer buffer_Write set_catalog app].
  rewrite Hread. reflexivity.
Qed.

(** Whatever the classifier, a gist that holds the version and nothing else
    ends in the index-out-of-range fault of [popChild], handed to it. *)
Lemma version_only_gist (pre : list byte) (cat : option Catalog) :
  Binary.ReadVarint pre = ((version, None), []) ->
  DecodePlanGistToPlan D checkOp SC (inl pre) cat
  = match SC (PanicRuntime (IndexOutOfRange (-1) 0)) with
    | Some e => Returned (Some emptyPlan) (Some e)
    | None => Panicked (PanicRuntime (IndexOutOfRange (-1) 0))
    end.
Proof.
  intros Hread. unfold DecodePlanGistToPlan, runDecode.
  rewrite (decodeBody_version_only pre emptyPlan cat _ Hread).
  reflexivity.
Qed.

(** C7.  The deferred handler of [DecodePlanGistToPlan]: when the body
    panics with [r], the call returns the error [ShouldCatch] makes of [r]
    if it recognises [r], and panics with [r] again if it does not.
    Conversely a returned error is either one the body returned itself or
    one [ShouldCatch] made of a recognised fault, and a panic that leaves
    the call is one [ShouldCatch] did not recognise. *)
Theorem faults_are_converted_or_raised_again
  (bytes : list byte) (cat : option Catalog) :
  let body := decodeBody D checkOp (S (List.length bytes)) emptyPlan
                (decodeFactory bytes cat) in
  let call := DecodePlanGistToPlan D checkOp SC (inl bytes) cat in
  (forall r plan f, body = (BodyPanic r, plan, f) ->
     call = match SC r with
            | Some e => Returned (Some plan) (Some e)
            | None => Panicked r
            end)
  /\ (forall p e, call = Returned p (Some e) ->
        (exists plan f, body = (BodyReturn p (Some e), plan, f))
        \/ (exists r plan f,
              body = (BodyPanic r, plan, f) /\ SC r = Some e /\ p = Some plan))
  /\ (forall r, call = Panicked r ->
        exists plan f, body = (BodyPanic r, plan, f) /\ SC r = None).
Proof.
  cbv zeta. unfold DecodePlanGistToPlan, runDecode.
  destruct (decodeBody D checkOp (S (List.length bytes)) emptyPlan
              (decodeFactory bytes cat)) as [[e plan] f].
  cbn [fst]. split; [|split].
  - intros r plan' f' H. inversion H; subst. reflexivity.
  - intros p err H. destruct e as [p' err'|r|]; cbn in H.
    + inversion H; subst. left. eauto.
    + destruct (SC r) as [e'|] eqn:E; [|discriminate].
      inversion H; subst. right. exists r, plan, f. auto.
    + discriminate.
  - intros r H. destruct e as [p' err'|r'|]; cbn in H; try discriminate.
    destruct (SC r') as [e'|] eqn:E; [discriminate|].
    inversion H; subst. eauto.
Qed.

End DecoderFacts.

(** A base64 text that does not decode is returned as the error it is. *)
Lemma corrupt_text_is_returned (D : execOperator -> M (Node + error))
  (checkOp : execOperator) (SC : panic_value -> option error)
  (e : error) (cat : option Catalog) :
  DecodePlanGistToPlan D checkOp SC (inr e) cat = Returned None (Some e).
Proof. reflexivity. Qed.

(** Version 2 where 1 is expected, then bytes that would be a scan. *)
Lemma version_mismatch_is_reported_at_once_witness :
  runDecode (decodeOperatorBody Ops.table) Ops.errorIfRowsOp catchErrorValues
    (inl ([x04] ++ [x01; x0a])) (Some Scenario.cat)
  = (Returned None (Some (ErrUnsupportedVersion 2)),
     set_buffer (decodeFactory [] (Some Scenario.cat)) [x01; x0a]).
Proof.
  apply (version_mismatch_is_reported_at_once
           (decodeOperatorBody Ops.table) Ops.errorIfRowsOp catchErrorValues
           [x04] [x01; x0a] 2 (Some Scenario.cat)).
  - reflexivity.
  - discriminate.
Defined.

(** An empty gist: [decodeInt] panics with [io.EOF], which is returned. *)
Lemma faults_are_converted_or_raised_again_witness :
  DecodePlanGistToPlan (decodeOperatorBody Ops.table) Ops.errorIfRowsOp catchErrorValues
    (inl []) None
  = Returned (Some emptyPlan) (Some EOF).
Proof.
  apply (proj1 (faults_are_converted_or_raised_again
                  (decodeOperatorBody Ops.table) Ops.errorIfRowsOp catchErrorValues [] None)
           (PanicError EOF) emptyPlan (decodeFactory [] None)).
  reflexivity.
Defined.

(** A truncated payload: the scan opcode without its table id. *)
Example truncated_payload_is_returned :
  DecodePlanGistToPlan (decodeOperatorBody Ops.table) Ops.errorIfRowsOp catchErrorValues
    (inl [x02; x01]) (Some Scenario.cat)
  = Returned (Some emptyPlan) (Some EOF).
Proof. reflexivity. Qed.

(** An opcode outside the table: [decodeOperatorBody] returns an error,
    [decodeOp] panics with it, the handler returns it. *)
Example invalid_opcode_is_returned :
  DecodePlanGistToPlan (decodeOperatorBody Ops.table) Ops.errorIfRowsOp catchErrorValues
    (inl [x02; xc8]) (Some Scenario.cat)
  = Returned (Some emptyPlan) (Some (ErrOperatorBody 200)).
Proof. reflexivity. Qed.

(** X17.  A gist whose bytes are a varint of the expected version and
    nothing more: the loop ends at once on the empty buffer, [popChild]
    indexes the empty node stack at -1, and that runtime fault is what the
    deferred handler recovers.  Whether the call then returns an error
    beside the empty plan or panics again is the classifier's answer on
    that fault, whatever the operator decoders and the catalog. *)
Theorem version_only_gist_reaches_the_handler
  (D : execOperator -> M (Node + error)) (checkOp : execOperator)
  (SC : panic_value -> option error) (pre : list byte) (cat : option Catalog) :
  Binary.ReadVarint pre = ((version, None), []) ->
  popChild (decodeFactory [] cat)
  = (Panic (PanicRuntime (IndexOutOfRange (-1) 0)), decodeFactory [] cat)
  /\ DecodePlanGistToPlan D checkOp SC (inl pre) cat
     = match SC (PanicRuntime (IndexOutOfRange (-1) 0)) with
       | Some e => Returned (Some emptyPlan) (Some e)
       | None => Panicked (PanicRuntime (IndexOutOfRange (-1) 0))
       end.
Proof.
  intros Hread. split; [reflexivity|].
  apply (version_only_gist D checkOp SC pre cat Hread).
Qed.

(** The same gist under a classifier that recognises error values only and
    under one that recognises every recovered value. *)
Lemma version_only_gist_reaches_the_handler_witness :
  DecodePlanGistToPlan (decodeOperatorBody Ops.table) Ops.errorIfRowsOp
    catchErrorValues (inl (Binary.PutVarint version)) (Some Scenario.cat)
  = Panicked (PanicRuntime (IndexOutOfRange (-1) 0))
  /\ DecodePlanGistToPlan (decodeOperatorBody Ops.table) Ops.errorIfRowsOp
       catchAll (inl (Binary.PutVarint version)) (Some Scenario.cat)
     = Returned (Some emptyPlan) (Some (ErrAssertionFailed "runtime error")).
Proof.
  split.
  - apply (version_only_gist_reaches_the_handler
             (decodeOperatorBody Ops.table) Ops.errorIfRowsOp catchErrorValues
             (Binary.PutVarint version) (Some Scenario.cat)).
    reflexivity.
  - apply (version_only_gist_reaches_the_handler
             (decodeOperatorBody Ops.table) Ops.errorIfRowsOp catchAll
             (Binary.PutVarint version) (Some Scenario.cat)).
    reflexivity.
Defined.

(* ===================================================================== *)
(** ** The decoder: ids the catalog cannot resolve *)
(* ===================================================================== *)

Lemma to_unsigned_signed (u : Z) :
  Int64.is_uint64 u -> Int64.to_unsigned (Int64.to_signed u) = u.
Proof.
  unfold Int64.is_uint64, Int64.to_unsigned, Int64.to_signed, Int64.modulus, Int64.half.
  intros Hu. destruct (Z.ltb_spec u (2 ^ 63)).
  - apply Z.mod_small. lia.
  - symmetry. apply Z.mod_unique with (q := -1); lia.
Qed.

Lemma to_signed_range (u : Z) :
  Int64.is_uint64 u -> Int64.is_int64 (Int64.to_signed u).
Proof.
  unfold Int64.is_uint64, Int64.is_int64, Int64.to_signed, Int64.modulus, Int64.half.
  intros Hu. destruct (Z.ltb_spec u (2 ^ 63)); lia.
Qed.

Lemma decodeID_PutVarint (id : Z) (rest : list byte) (f : PlanGistFactory) :
  Int64.is_uint64 id ->
  decodeID (set_buffer f (Binary.PutVarint (Int64.to_signed id) ++ rest))
  = (Ok id, set_buffer f rest).
Proof.
  intros Hid. unfold decodeID, bind.
  rewrite decodeInt_PutVarint by (apply to_signed_range; exact Hid).
  unfold ret. rewrite to_unsigned_signed by exact Hid. reflexivity.
Qed.




(* ===================================================================== *)
(** ** Trees: what the encoder writes *)
(* ===================================================================== *)



Lemma grown_nil (f : PlanGistFactory) : grown f [] [] = f.
Proof. unfold grown. cbn. rewrite app_nil_r. apply factory_eta. Qed.

Lemma grown_grown (f : PlanGistFactory) (w1 p1 w2 p2 : list byte) :
  grown (grown f w1 p1) w2 p2 = grown f (w1 ++ w2) (p1 ++ p2).
Proof. unfold grown. cbn. rewrite <- app_assoc, fold_app. reflexivity. Qed.

Lemma encodeForest_grown (ts : list PlanTree) :
  Forall (fun t => forall f, encodeTree t f = grown f (records t) (hashed_records t)) ts ->
  forall f,
    encodeForest ts f
    = grown f (List.concat (map records ts)) (List.concat (map hashed_records ts)).
Proof.
  induction 1 as [|t ts Ht _ IH]; intros f.
  - cbn. symmetry. apply grown_nil.
  - unfold encodeForest in *. cbn [fold_left map List.concat].
    rewrite IH, Ht, grown_grown. reflexivity.
Qed.

Lemma Construct_grown (op : execOperator) (params : list call) (f : PlanGistFactory) :
  Construct op params f
  = grown f (GoByte.of_Z op :: List.concat (map buffered params))
            (GoByte.of_Z op :: List.concat (map hashed params)).
Proof.
  unfold Construct. rewrite run_spec.
  change (encodeOperator op f) with (exec_call (CallOperator op) f).
  rewrite exec_call_spec. cbn [buffered hashed].
  change (GoByte.of_Z op :: List.concat (map buffered params))
    with ([GoByte.of_Z op] ++ List.concat (map buffered params)).
  change (GoByte.of_Z op :: List.concat (map hashed params))
    with ([GoByte.of_Z op] ++ List.concat (map hashed params)).
  rewrite <- grown_grown. reflexivity.
Qed.

Lemma encodeTree_grown (t : PlanTree) :
  forall f, encodeTree t f = grown f (records t) (hashed_records t).
Proof.
  induction t as [op params inputs IH] using PlanTree_nested_ind. intros f.
  cbn [encodeTree records hashed_records].
  change (fold_left (fun f i => encodeTree i f) inputs f) with (encodeForest inputs f).
  rewrite (encodeForest_grown inputs IH), Construct_grown, grown_grown.
  reflexivity.
Qed.

Lemma decodeOp_at_end (D : execOperator -> M (Node + error)) (f : PlanGistFactory) :
  buffer f = [] -> decodeOp D f = (Ok unknownOp, f).
Proof. intros H. unfold decodeOp, buffer_ReadByte. rewrite H. reflexivity. Qed.

Lemma decodeOp_at_zero (D : execOperator -> M (Node + error)) (f : PlanGistFactory)
  (rest : list byte) :
  buffer f = x00 :: rest -> decodeOp D f = (Ok unknownOp, set_buffer f rest).
Proof. intros H. unfold decodeOp, buffer_ReadByte. rewrite H. reflexivity. Qed.

(** C4, as the code has it.  The buffer of a gist is the varint of the
    version followed by the records of the plan in post-order, and nothing
    after them: [ConstructPlan] writes no byte, so no sentinel closes the
    buffer, and the decoder leaves its loop at the end of the buffer as it
    does at a zero opcode byte.  A scan of table "t", id 5, under a sort is
    the version, the scan opcode, the varint of 5 and the sort opcode. *)
Theorem gist_is_version_then_records
  (t : PlanTree) (scanOp sortOp : execOperator)
  (D : execOperator -> M (Node + error)) (f : PlanGistFactory) :
  buffer (ConstructPlan (encodeTree t NewPlanGistFactory))
  = Binary.PutVarint version ++ records t
  /\ buffer (ConstructPlan
               (encodeTree (PT sortOp [CallColumnOrdering []]
                              [PT scanOp [CallDataSource 5 "t"] []])
                  NewPlanGistFactory))
     = Binary.PutVarint version
       ++ [GoByte.of_Z scanOp] ++ Binary.PutVarint 5 ++ [GoByte.of_Z sortOp]
  /\ decodeOp D (set_buffer f []) = (Ok unknownOp, set_buffer f []).
Proof.
  unfold ConstructPlan. rewrite !encodeTree_grown. repeat split.
Qed.

(** C4 as stated fails: the buffer of the scenario is four bytes long and
    ends with the sort opcode, and the buffer of a factory on which no
    operator was constructed is the version alone. *)
Lemma no_sentinel_is_written :
  buffer (ConstructPlan Scenario.encoded) = [x02; x01; x0a; x11]
  /\ buffer (ConstructPlan Scenario.encoded) <> [x02; x01; x0a; x11; x00]
  /\ buffer (ConstructPlan NewPlanGistFactory) = [x02].
Proof. repeat split. discriminate. Qed.

(* ===================================================================== *)
(** ** Trees: what the decoder rebuilds *)
(* ===================================================================== *)


Lemma popChild_top (f : PlanGistFactory) (b : list byte) (s : list Node) (n : Node) :
  popChild (at_state f b (s ++ [n])) = (Ok n, at_state f b s).
Proof.
  unfold popChild, len. cbn [nodeStack at_state].
  rewrite length_app. cbn [List.length].
  replace (Z.of_nat (List.length s + 1) - 1) with (Z.of_nat (List.length s)) by lia.
  destruct (Z.ltb_spec (Z.of_nat (List.length s)) 0) as [H|_]; [lia|].
  destruct (Z.leb_spec (Z.of_nat (List.length s + 1)) (Z.of_nat (List.length s)))
    as [H|_]; [lia|].
  cbn [orb]. rewrite Nat2Z.id.
  rewrite nth_error_app2 by lia. rewrite Nat.sub_diag. cbn [nth_error].
  rewrite firstn_app, Nat.sub_diag, firstn_all. cbn [firstn].
  rewrite app_nil_r. reflexivity.
Qed.

Lemma popChildren_top (f : PlanGistFactory) (b : list byte) (ns : list Node) :
  forall s,
    popChildren (List.length ns) (at_state f b (s ++ ns)) = (Ok ns, at_state f b s).
Proof.
  induction ns as [|n ns IH] using rev_ind; intros s.
  - cbn. rewrite app_nil_r. reflexivity.
  - rewrite length_app, Nat.add_1_r, app_assoc.
    cbn [popChildren List.length]. unfold bind at 1.
    rewrite popChild_top. unfold bind at 1. rewrite IH. reflexivity.
Qed.

Lemma decodeInt_at (x : Z) (rest : list byte) (f : PlanGistFactory) (s : list Node) :
  Int64.is_int64 x ->
  decodeInt (at_state f (Binary.PutVarint x ++ rest) s) = (Ok x, at_state f rest s).
Proof. intros Hx. apply (decodeInt_PutVarint x rest (at_state f [] s) Hx). Qed.

Lemma decodeID_at (id : Z) (rest : list byte) (f : PlanGistFactory) (s : list Node) :
  Int64.is_uint64 id ->
  decodeID (at_state f (Binary.PutVarint (Int64.to_signed id) ++ rest) s)
  = (Ok id, at_state f rest s).
Proof. intros H. apply (decodeID_PutVarint id rest (at_state f [] s) H). Qed.

Lemma is_int64b_true (x : Z) : is_int64b x = true -> Int64.is_int64 x.
Proof.
  unfold is_int64b, Int64.is_int64. intros H.
  apply andb_true_iff in H. destruct H as [H1 H2].
  apply Z.leb_le in H1. apply Z.ltb_lt in H2. lia.
Qed.

Lemma is_uint64b_true (x : Z) : is_uint64b x = true -> Int64.is_uint64 x.
Proof.
  unfold is_uint64b, Int64.is_uint64. intros H.
  apply andb_true_iff in H. destruct H as [H1 H2].
  apply Z.leb_le in H1. apply Z.ltb_lt in H2. lia.
Qed.

Lemma decode_count_at {A : Type} (zero : A) (l : list A) (rest : list byte)
  (f : PlanGistFactory) (s : list Node) :
  (len l <? Int64.half) = true ->
  (n <- decodeInt ;; make zero n) (at_state f (Binary.PutVarint (len l) ++ rest) s)
  = (Ok (repeat zero (List.length l)), at_state f rest s).
Proof.
  intros H. apply Z.ltb_lt in H.
  apply (decode_count zero l rest (at_state f [] s) H).
Qed.

(** Each decode routine consumes the bytes its encode routine wrote, and
    no more. *)
Lemma decodeArg_expected (c : Catalog) (k : kind) (p : call) (tbl : option Table)
  (f : PlanGistFactory) (rest : list byte) (s : list Node) :
  catalog f = Some c ->
  param_fits c k p = true ->
  decodeArg k tbl (at_state f (buffered p ++ rest) s)
  = (Ok (expected_arg c k p tbl), at_state f rest s).
Proof.
  intros Hcat Hfit.
  destruct k, p; cbn in Hfit; try discriminate; cbn [buffered expected_arg decodeArg].
  - (* int *)
    unfold bind. rewrite decodeInt_at by (apply is_int64b_true; exact Hfit).
    reflexivity.
  - (* bool *)
    destruct b; reflexivity.
  - (* join type *)
    reflexivity.
  - (* table *)
    apply andb_true_iff in Hfit. destruct Hfit as [Hid Hres].
    unfold decodeTable, bind.
    rewrite decodeID_at by (apply is_uint64b_true; exact Hid).
    cbn [catalog at_state]. rewrite Hcat.
    unfold table_or_unknown in Hres.
    destruct (ResolveDataSourceByID c id) as [[t| |]|e]; try discriminate; reflexivity.
  - (* index *)
    unfold decodeIndex, bind.
    rewrite decodeID_at by (apply is_uint64b_true; exact Hfit).
    destruct tbl; reflexivity.
  - (* schema *)
    unfold decodeSchema, bind.
    rewrite decodeID_at by (apply is_uint64b_true; exact Hfit).
    reflexivity.
  - unfold decodeNodeColumnOrdinals. unfold bind at 1.
    rewrite (decode_count_at zeroNodeColumnOrdinal vals rest f s Hfit). reflexivity.
  - unfold decodeResultColumns. unfold bind at 1.
    rewrite (decode_count_at zeroResultColumn vals rest f s Hfit). reflexivity.
  - unfold decodeRows. unfold bind at 1.
    rewrite (decode_count_at zeroRow rows rest f s Hfit). reflexivity.
  - reflexivity.
Qed.

Lemma decodeArgs_expected (c : Catalog) (ks : list kind) :
  forall (ps : list call) (tbl : option Table) (f : PlanGistFactory)
         (rest : list byte) (s : list Node),
    catalog f = Some c ->
    params_fit c ks ps = true ->
    decodeArgs ks tbl (at_state f (List.concat (map buffered ps) ++ rest) s)
    = (Ok (expected_args c ks ps tbl), at_state f rest s).
Proof.
  induction ks as [|k ks IH]; intros ps tbl f rest s Hcat Hfit;
    destruct ps as [|p ps]; cbn in Hfit; try discriminate.
  - reflexivity.
  - apply andb_true_iff in Hfit. destruct Hfit as [Hp Hps].
    cbn [map List.concat decodeArgs expected_args]. rewrite <- app_assoc.
    unfold bind at 1. rewrite (decodeArg_expected c k p tbl f _ s Hcat Hp).
    unfold bind at 1. rewrite (IH ps _ f rest s Hcat Hps). reflexivity.
Qed.

Section RoundTrip.

Variable ops : operatorTable.
Variable checkOp : execOperator.
Variable c : Catalog.

Lemma decodeOperatorBody_expected (op : execOperator) (info : opInfo)
  (params : list call) (ns : list Node) (f : PlanGistFactory)
  (rest : list byte) (s : list Node) :
  catalog f = Some c ->
  ops op = Some info ->
  params_fit c (layout info) params = true ->
  List.length ns = arity info ->
  decodeOperatorBody ops op
    (at_state f (List.concat (map buffered params) ++ rest) (s ++ ns))
  = (Ok (inl (mkNode op (expected_args c (layout_of ops op) params None) ns)),
     at_state f rest s).
Proof.
  intros Hcat Hop Hfit Hlen. unfold decodeOperatorBody, layout_of. rewrite Hop.
  unfold bind at 1.
  rewrite (decodeArgs_expected c (layout info) params None f rest (s ++ ns) Hcat Hfit).
  unfold bind at 1. rewrite <- Hlen, popChildren_top. reflexivity.
Qed.

(** One record: the opcode byte, the payload, and the inputs on top of the
    stack replaced by the node. *)
Lemma decodeOp_record (op : execOperator) (info : opInfo)
  (params : list call) (ns : list Node) (f : PlanGistFactory)
  (rest : list byte) (s : list Node) :
  catalog f = Some c ->
  0 < op < 256 ->
  ops op = Some info ->
  params_fit c (layout info) params = true ->
  List.length ns = arity info ->
  decodeOp (decodeOperatorBody ops)
    (at_state f (GoByte.of_Z op :: List.concat (map buffered params) ++ rest) (s ++ ns))
  = (Ok op,
     at_state f rest
       (s ++ [mkNode op (expected_args c (layout_of ops op) params None) ns])).
Proof.
  intros Hcat Hop Hinfo Hfit Hlen.
  unfold decodeOp, buffer_ReadByte. cbn [buffer at_state set_buffer].
  rewrite GoByteFacts.to_of_Z, Z.mod_small by lia.
  destruct (Z.eqb_spec op 0) as [E|_]; [lia|].
  change (set_buffer
            (at_state f (GoByte.of_Z op :: List.concat (map buffered params) ++ rest)
               (s ++ ns))
            (List.concat (map buffered params) ++ rest))
    with (at_state f (List.concat (map buffered params) ++ rest) (s ++ ns)).
  rewrite (decodeOperatorBody_expected op info params ns f rest s Hcat Hinfo Hfit Hlen).
  reflexivity.
Qed.

Let loop_over (t : PlanTree) : Prop :=
  well_formed ops checkOp c t = true ->
  forall (fuel : nat) (plan : Plan) (f : PlanGistFactory) (rest : list byte)
         (s : list Node),
    catalog f = Some c ->
    decodeLoop (decodeOperatorBody ops) checkOp (size t + fuel) plan
      (at_state f (records t ++ rest) s)
    = decodeLoop (decodeOperatorBody ops) checkOp fuel plan
        (at_state f rest (s ++ [expected_node ops c t])).

Lemma loop_over_forest (ts : list PlanTree) :
  Forall loop_over ts ->
  forallb (well_formed ops checkOp c) ts = true ->
  forall (fuel : nat) (plan : Plan) (f : PlanGistFactory) (rest : list byte)
         (s : list Node),
    catalog f = Some c ->
    decodeLoop (decodeOperatorBody ops) checkOp (list_sum (map size ts) + fuel) plan
      (at_state f (List.concat (map records ts) ++ rest) s)
    = decodeLoop (decodeOperatorBody ops) checkOp fuel plan
        (at_state f rest (s ++ map (expected_node ops c) ts)).
Proof.
  induction 1 as [|t ts Ht _ IH]; intros Hwf fuel plan f rest s Hcat.
  - cbn. rewrite app_nil_r. reflexivity.
  - cbn in Hwf. apply andb_true_iff in Hwf. destruct Hwf as [Hwt Hwts].
    change (list_sum (map size (t :: ts)))
      with (size t + list_sum (map size ts))%nat.
    cbn [map List.concat]. rewrite <- app_assoc, <- Nat.add_assoc.
    rewrite (Ht Hwt _ plan f _ s Hcat).
    rewrite (IH Hwts fuel plan f rest _ Hcat).
    rewrite <- app_assoc. reflexivity.
Qed.

(** The loop over the records of a well-formed tree leaves its node on the
    stack, the checks as they were, and goes on with what follows. *)
Lemma loop_over_tree (t : PlanTree) : loop_over t.
Proof.
  induction t as [op params inputs IH] using PlanTree_nested_ind.
  unfold loop_over. intros Hwf fuel plan f rest s Hcat.
  cbn [well_formed] in Hwf.
  apply andb_true_iff in Hwf. destruct Hwf as [Hwf Hinputs].
  apply andb_true_iff in Hwf. destruct Hwf as [Hwf Hinfo].
  apply andb_true_iff in Hwf. destruct Hwf as [Hwf Hcheck].
  apply andb_true_iff in Hwf. destruct Hwf as [Hpos Hbyte].
  apply Z.ltb_lt in Hpos. apply Z.ltb_lt in Hbyte.
  apply negb_true_iff in Hcheck.
  destruct (ops op) as [info|] eqn:Hop; [|discriminate].
  apply andb_true_iff in Hinfo. destruct Hinfo as [Hfit Harity].
  apply Nat.eqb_eq in Harity.
  cbn [records size expected_node].
  rewrite <- app_assoc.
  replace (S (list_sum (map size inputs)) + fuel)%nat
    with (list_sum (map size inputs) + S fuel)%nat by lia.
  rewrite (loop_over_forest inputs IH Hinputs (S fuel) plan f _ s Hcat).
  cbn [decodeLoop app].
  rewrite (decodeOp_record op info params (map (expected_node ops c) inputs)
             f rest s Hcat (conj Hpos Hbyte) Hop Hfit).
  - unfold unknownOp. destruct (Z.eqb_spec op 0) as [E|_]; [lia|].
    rewrite Hcheck. reflexivity.
  - rewrite length_map. exact Harity.
Qed.

Lemma size_le_records (t : PlanTree) : (size t <= List.length (records t))%nat.
Proof.
  induction t as [op params inputs IH] using PlanTree_nested_ind.
  cbn [size records]. rewrite length_app. cbn [List.length].
  assert (H : (list_sum (map size inputs)
               <= List.length (List.concat (map records inputs)))%nat).
  { induction IH as [|t ts Ht _ IHts]; [cbn; lia|].
    change (list_sum (map size (t :: ts)))
      with (size t + list_sum (map size ts))%nat.
    cbn [map List.concat]. rewrite length_app. lia. }
  lia.
Qed.

Lemma shape_of_expected_node (t : PlanTree) :
  shape_of_node (expected_node ops c t) = shape_of_tree t.
Proof.
  induction t as [op params inputs IH] using PlanTree_nested_ind.
  cbn [expected_node shape_of_node shape_of_tree]. f_equal.
  rewrite map_map. induction IH as [|t ts Ht _ IHts]; [reflexivity|].
  cbn [map]. rewrite Ht, IHts. reflexivity.
Qed.

(** The whole decode of the gist of one well-formed tree. *)
Lemma decode_of_encoded_tree (SC : panic_value -> option error) (t : PlanTree) :
  well_formed ops checkOp c t = true ->
  DecodePlanGistToPlan (decodeOperatorBody ops) checkOp SC
    (inl (buffer (encodeTree t NewPlanGistFactory))) (Some c)
  = Returned
      (Some {| Root := Some (expected_node ops c t); Subqueries := []; Checks := [] |})
      None.
Proof.
  intros Hwf. rewrite encodeTree_grown. cbn [buffer grown NewPlanGistFactory].
  rewrite NewPlanGistFactory_spec. cbn [buffer].
  unfold DecodePlanGistToPlan, runDecode, decodeBody.
  set (bytes := Binary.PutVarint version ++ records t).
  change (decodeFactory bytes (Some c))
    with (at_state (decodeFactory [] (Some c)) (Binary.PutVarint version ++ records t) []).
  rewrite decodeInt_at by (unfold Int64.is_int64, Int64.half, version; lia).
  cbn [Z.eqb version negb Pos.eqb].
  pose proof (size_le_records t) as Hsize.
  assert (Hfuel : exists k, S (List.length bytes) = (size t + S k)%nat).
  { exists (List.length bytes - size t)%nat. unfold bytes.
    rewrite length_app. lia. }
  destruct Hfuel as [k Hk]. rewrite Hk.
  rewrite <- (app_nil_r (records t)).
  rewrite (loop_over_tree t Hwf (S k) emptyPlan (decodeFactory [] (Some c)) [] []
             eq_refl).
  cbn [decodeLoop app].
  rewrite decodeOp_at_end by reflexivity.
  cbn [Z.eqb unknownOp].
  pose proof (popChild_top (decodeFactory [] (Some c)) [] [] (expected_node ops c t))
    as Hpop.
  cbn [app] in Hpop. rewrite Hpop. reflexivity.
Qed.

End RoundTrip.

(** C2, as the code has it.  Take a plan tree over the operator table in
    which the operator the decoder collects as a check does not occur.
    Encoding it with the gist factory and decoding the buffer, under a
    catalog that knows each table id of the tree as a table or not at all,
    returns a plan whose root has the shape of the tree: the same operator
    at every node, the same number of inputs, in the same order.  And each
    decode routine, run on the bytes its encode routine appended followed
    by anything else, consumes those bytes and no more. *)
Theorem shape_round_trip
  (ops : operatorTable) (checkOp : execOperator) (c : Catalog)
  (SC : panic_value -> option error) (t : PlanTree) :
  well_formed ops checkOp c t = true ->
  (exists n,
      DecodePlanGistToPlan (decodeOperatorBody ops) checkOp SC
        (inl (buffer (encodeTree t NewPlanGistFactory))) (Some c)
      = Returned (Some {| Root := Some n; Subqueries := []; Checks := [] |}) None
      /\ shape_of_node n = shape_of_tree t)
  /\ (forall k p tbl f rest s,
        catalog f = Some c ->
        param_fits c k p = true ->
        decodeArg k tbl (at_state f (buffered p ++ rest) s)
        = (Ok (expected_arg c k p tbl), at_state f rest s)).
Proof.
  intros Hwf. split.
  - exists (expected_node ops c t). split.
    + apply decode_of_encoded_tree. exact Hwf.
    + apply shape_of_expected_node.
  - intros k p tbl f rest s Hcat Hfit. apply decodeArg_expected; assumption.
Qed.


Lemma shape_round_trip_witness :
  exists n,
    DecodePlanGistToPlan (decodeOperatorBody Ops.table) Ops.errorIfRowsOp catchErrorValues
      (inl (buffer (encodeTree join_plan NewPlanGistFactory))) (Some Scenario.cat)
    = Returned (Some {| Root := Some n; Subqueries := []; Checks := [] |}) None
    /\ shape_of_node n
       = Sh Ops.sortOp [Sh Ops.hashJoinOp [Sh Ops.scanOp []; Sh Ops.scanOp []]].
Proof.
  apply (proj1 (shape_round_trip Ops.table Ops.errorIfRowsOp Scenario.cat
                  catchErrorValues join_plan eq_refl)).
Defined.

(** C2 as stated fails on a tree whose root is the operator the decoder
    collects as a check: the node goes to the checks, the stack is empty
    when the root is popped, and no root comes back. *)
Lemma check_rooted_tree_is_not_rebuilt :
  well_formed Ops.table 0 Scenario.cat (PT Ops.errorIfRowsOp [] [Scenario.scan]) = true
  /\ runDecode (decodeOperatorBody Ops.table) Ops.errorIfRowsOp catchErrorValues
       (inl (buffer (encodeTree (PT Ops.errorIfRowsOp [] [Scenario.scan])
                       NewPlanGistFactory)))
       (Some Scenario.cat)
     = (Panicked (PanicRuntime (IndexOutOfRange (-1) 0)),
        decodeFactory [] (Some Scenario.cat)).
Proof. split; reflexivity. Qed.

(** The same with the classifier left open: the body ends in the fault of
    [popChild], with the node among the checks. *)
Example check_rooted_tree_body :
  decodeBody (decodeOperatorBody Ops.table) Ops.errorIfRowsOp 4 emptyPlan
    (decodeFactory (buffer (encodeTree (PT Ops.errorIfRowsOp [] [Scenario.scan])
                              NewPlanGistFactory))
       (Some Scenario.cat))
  = (BodyPanic (PanicRuntime (IndexOutOfRange (-1) 0)),
     {| Root := None; Subqueries := [];
        Checks := [mkNode Ops.errorIfRowsOp []
                     [mkNode Ops.scanOp [ATable (Some Scenario.t)] []]] |},
     decodeFactory [] (Some Scenario.cat)).
Proof. reflexivity. Qed.

(* ===================================================================== *)
(** ** The loop bound is never reached *)
(* ===================================================================== *)

Lemma reads_only_ret {A : Type} (a : A) : reads_only (ret a).
Proof. intros f. cbn. lia. Qed.

Lemma reads_only_panic {A : Type} (p : panic_value) : reads_only (@panic A p).
Proof. intros f. cbn. lia. Qed.

Lemma reads_only_bind {A B : Type} (m : M A) (k : A -> M B) :
  reads_only m -> (forall a, reads_only (k a)) -> reads_only (bind m k).
Proof.
  intros Hm Hk f. unfold bind. specialize (Hm f).
  destruct (m f) as [[a|p] f1]; cbn [snd] in *.
  - specialize (Hk a f1). lia.
  - exact Hm.
Qed.

Lemma ReadUvarint_loop_length (n : nat) :
  forall x s buf,
    (List.length (snd (Binary.ReadUvarint_loop n x s buf)) <= List.length buf)%nat.
Proof.
  induction n as [|n IH]; intros x s buf; cbn [Binary.ReadUvarint_loop].
  - cbn. lia.
  - destruct buf as [|b buf]; [cbn; lia|].
    destruct (GoByte.to_Z b <? 128).
    + destruct (Nat.eqb n 0 && (1 <? GoByte.to_Z b)); cbn; lia.
    + specialize (IH (Z.lor x (Int64.wrap (Z.shiftl (Z.land (GoByte.to_Z b) 127) s)))
                       (s + 7) buf).
      cbn [List.length]. lia.
Qed.

Lemma reads_only_decodeInt : reads_only decodeInt.
Proof.
  intros f. unfold decodeInt, Binary.ReadVarint, Binary.ReadUvarint.
  pose proof (ReadUvarint_loop_length Binary.MaxVarintLen64 0 0 (buffer f)) as H.
  destruct (Binary.ReadUvarint_loop Binary.MaxVarintLen64 0 0 (buffer f))
    as [[ux [e|]] rest]; cbn [snd buffer set_buffer] in *; exact H.
Qed.

Lemma reads_only_decodeID : reads_only decodeID.
Proof.
  apply reads_only_bind; [apply reads_only_decodeInt | intros; apply reads_only_ret].
Qed.

Lemma reads_only_decodeByte : reads_only decodeByte.
Proof.
  intros f. unfold decodeByte, buffer_ReadByte.
  destruct (buffer f) as [|b rest] eqn:E; cbn [snd buffer set_buffer].
  - rewrite E. cbn. lia.
  - cbn. lia.
Qed.

Lemma reads_only_make {A : Type} (zero : A) (l : Z) : reads_only (make zero l).
Proof.
  unfold make. destruct (l <? 0); [apply reads_only_panic | apply reads_only_ret].
Qed.

Lemma reads_only_popChild : reads_only popChild.
Proof.
  intros f. unfold popChild.
  destruct ((len (nodeStack f) - 1 <? 0) || (len (nodeStack f) <=? len (nodeStack f) - 1));
    [cbn; lia|].
  destruct (nth_error (nodeStack f) (Z.to_nat (len (nodeStack f) - 1))); cbn; lia.
Qed.

Lemma reads_only_decodeArg (k : kind) (tbl : option Table) : reads_only (decodeArg k tbl).
Proof.
  destruct k; cbn [decodeArg];
    (apply reads_only_bind; [|intros; apply reads_only_ret]).
  - apply reads_only_decodeInt.
  - apply reads_only_bind; [apply reads_only_decodeByte | intros; apply reads_only_ret].
  - apply reads_only_decodeByte.
  - apply reads_only_bind; [apply reads_only_decodeID|].
    intros id f. destruct (catalog f) as [c|]; [|cbn; lia].
    destruct (ResolveDataSourceByID c id) as [[t| |]|e]; cbn; lia.
  - apply reads_only_bind; [apply reads_only_decodeID|].
    intros id. destruct tbl; apply reads_only_ret.
  - apply reads_only_bind; [apply reads_only_decodeID | intros; apply reads_only_ret].
  - apply reads_only_bind; [apply reads_only_decodeInt | intros; apply reads_only_make].
  - apply reads_only_bind; [apply reads_only_decodeInt | intros; apply reads_only_make].
  - apply reads_only_bind; [apply reads_only_decodeInt | intros; apply reads_only_make].
  - apply reads_only_ret.
Qed.

Lemma reads_only_decodeArgs (ks : list kind) :
  forall tbl, reads_only (decodeArgs ks tbl).
Proof.
  induction ks as [|k ks IH]; intros tbl; cbn [decodeArgs].
  - apply reads_only_ret.
  - apply reads_only_bind; [apply reads_only_decodeArg|].
    intros a. apply reads_only_bind; [apply IH | intros; apply reads_only_ret].
Qed.

Lemma reads_only_popChildren (n : nat) : reads_only (popChildren n).
Proof.
  induction n as [|n IH]; cbn [popChildren].
  - apply reads_only_ret.
  - apply reads_only_bind; [apply reads_only_popChild|].
    intros ch. apply reads_only_bind; [exact IH | intros; apply reads_only_ret].
Qed.

Lemma reads_only_decodeOperatorBody (ops : operatorTable) (op : execOperator) :
  reads_only (decodeOperatorBody ops op).
Proof.
  unfold decodeOperatorBody. destruct (ops op) as [info|]; [|apply reads_only_ret].
  apply reads_only_bind; [apply reads_only_decodeArgs|].
  intros args. apply reads_only_bind; [apply reads_only_popChildren|].
  intros; apply reads_only_ret.
Qed.

Section LoopBound.

Variable D : execOperator -> M (Node + error).
Variable checkOp : execOperator.
Variable SC : panic_value -> option error.
Hypothesis D_reads_only : forall op, reads_only (D op).

(** A turn of the loop that does not end it has consumed the opcode byte. *)
Lemma decodeOp_progress (f f1 : PlanGistFactory) (op : execOperator) :
  decodeOp D f = (Ok op, f1) ->
  op <> unknownOp ->
  (List.length (buffer f1) < List.length (buffer f))%nat.
Proof.
  unfold decodeOp, buffer_ReadByte. intros H Hop.
  destruct (buffer f) as [|b rest] eqn:E.
  - inversion H; subst. contradiction.
  - destruct (GoByte.to_Z b =? 0).
    + inversion H; subst. contradiction.
    + pose proof (D_reads_only (GoByte.to_Z b) (set_buffer f rest)) as Hd.
      destruct (D (GoByte.to_Z b) (set_buffer f rest)) as [[[n|e]|p] f2];
        cbn [snd buffer set_buffer] in Hd; inversion H; subst.
      cbn [buffer set_nodeStack List.length]. lia.
Qed.

Lemma decodeLoop_within_fuel (fuel : nat) :
  forall plan f,
    (List.length (buffer f) < fuel)%nat ->
    fst (fst (decodeLoop D checkOp fuel plan f)) <> LoopOutOfFuel.
Proof.
  induction fuel as [|fuel IH]; intros plan f Hlen; [lia|].
  cbn [decodeLoop].
  destruct (decodeOp D f) as [[op|p] f1] eqn:Eop; [|cbn; discriminate].
  destruct (Z.eqb_spec op unknownOp) as [E0|N0]; [cbn; discriminate|].
  pose proof (decodeOp_progress f f1 op Eop N0) as Hprog.
  destruct (op =? checkOp).
  - pose proof (reads_only_popChild f1) as Hpop.
    destruct (popChild f1) as [[n|p] f2]; cbn [snd] in Hpop; [|cbn; discriminate].
    apply IH. lia.
  - apply IH. lia.
Qed.

(** [DecodePlanGistToPlan] always comes to a result: the bound on the loop
    is never what ends it. *)
Lemma decode_is_total (decoded : list byte + error) (cat : option Catalog) :
  DecodePlanGistToPlan D checkOp SC decoded cat <> OutOfFuel.
Proof.
  unfold DecodePlanGistToPlan, runDecode.
  destruct decoded as [bytes|e]; [|cbn; discriminate].
  unfold decodeBody.
  pose proof (reads_only_decodeInt (decodeFactory bytes cat)) as Hint.
  destruct (decodeInt (decodeFactory bytes cat)) as [[ver|p] f1]; cbn [snd] in Hint.
  - destruct (negb (ver =? version)); [cbn; discriminate|].
    assert (Hfuel : (List.length (buffer f1) < S (List.length bytes))%nat).
    { cbn [decodeFactory buffer buffer_Write set_buffer app] in Hint. lia. }
    pose proof (decodeLoop_within_fuel (S (List.length bytes)) emptyPlan f1 Hfuel) as Hl.
    destruct (decodeLoop D checkOp (S (List.length bytes)) emptyPlan f1)
      as [[[| r |] plan1] f2]; cbn [fst] in Hl.
    + destruct (popChild f2) as [[n|p] f3]; cbn [fst recovered].
      * discriminate.
      * destruct (SC p); discriminate.
    + cbn [fst recovered]. destruct (SC r); discriminate.
    + contradiction.
  - cbn [fst recovered]. destruct (SC p); discriminate.
Qed.

End LoopBound.

(** The same for the operator decoder of any table. *)
Lemma decode_with_table_is_total (ops : operatorTable) (checkOp : execOperator)
  (SC : panic_value -> option error) (decoded : list byte + error)
  (cat : option Catalog) :
  DecodePlanGistToPlan (decodeOperatorBody ops) checkOp SC decoded cat <> OutOfFuel.
Proof.
  apply decode_is_total. intros op. apply reads_only_decodeOperatorBody.
Qed.

(* ===================================================================== *)
(** ** Whole plans: root, subqueries and checks *)
(* ===================================================================== *)

Section WholePlan.

Variable ops : operatorTable.
Variable checkOp : execOperator.
Variable c : Catalog.

Lemma well_formed_is_not_check (t : PlanTree) :
  well_formed ops checkOp c t = true -> is_check checkOp t = false.
Proof.
  destruct t as [op params inputs]. cbn [well_formed is_check]. intros H.
  destruct (op =? checkOp); [|reflexivity].
  rewrite andb_false_r in H. cbn in H. discriminate.
Qed.

Lemma check_tree_is_check (t : PlanTree) :
  check_tree ops checkOp c t = true -> is_check checkOp t = true.
Proof.
  destruct t as [op params inputs]. cbn [check_tree is_check]. intros H.
  destruct (op =? checkOp); [reflexivity|discriminate].
Qed.

(** The loop over the records of a check: its node is appended to the
    checks and the stack is as before. *)
Lemma loop_over_check (t : PlanTree) :
  check_tree ops checkOp c t = true ->
  forall (fuel : nat) (plan : Plan) (f : PlanGistFactory) (rest : list byte)
         (s : list Node),
    catalog f = Some c ->
    decodeLoop (decodeOperatorBody ops) checkOp (size t + fuel) plan
      (at_state f (records t ++ rest) s)
    = decodeLoop (decodeOperatorBody ops) checkOp fuel
        (add_check plan (expected_node ops c t)) (at_state f rest s).
Proof.
  destruct t as [op params inputs]. intros Hwf fuel plan f rest s Hcat.
  cbn [check_tree] in Hwf.
  apply andb_true_iff in Hwf. destruct Hwf as [Hwf Hinputs].
  apply andb_true_iff in Hwf. destruct Hwf as [Hwf Hinfo].
  apply andb_true_iff in Hwf. destruct Hwf as [Hwf Hbyte].
  apply andb_true_iff in Hwf. destruct Hwf as [Hcheck Hpos].
  apply Z.ltb_lt in Hpos. apply Z.ltb_lt in Hbyte.
  destruct (ops op) as [info|] eqn:Hop; [|discriminate].
  apply andb_true_iff in Hinfo. destruct Hinfo as [Hfit Harity].
  apply Nat.eqb_eq in Harity.
  cbn [records size expected_node].
  rewrite <- app_assoc.
  replace (S (list_sum (map size inputs)) + fuel)%nat
    with (list_sum (map size inputs) + S fuel)%nat by lia.
  assert (Hall : Forall (fun i =>
            well_formed ops checkOp c i = true ->
            forall fuel plan f rest s, catalog f = Some c ->
              decodeLoop (decodeOperatorBody ops) checkOp (size i + fuel) plan
                (at_state f (records i ++ rest) s)
              = decodeLoop (decodeOperatorBody ops) checkOp fuel plan
                  (at_state f rest (s ++ [expected_node ops c i]))) inputs).
  { apply Forall_forall. intros i _. apply loop_over_tree. }
  rewrite (loop_over_forest ops checkOp c inputs Hall Hinputs (S fuel) plan f _ s Hcat).
  cbn [decodeLoop app].
  rewrite (decodeOp_record ops c op info params (map (expected_node ops c) inputs)
             f rest s Hcat (conj Hpos Hbyte) Hop Hfit).
  - unfold unknownOp. destruct (Z.eqb_spec op 0) as [E|_]; [lia|].
    rewrite Hcheck, popChild_top. reflexivity.
  - rewrite length_map. exact Harity.
Qed.

Lemma add_checks_nil (plan : Plan) : add_checks plan [] = plan.
Proof. unfold add_checks. rewrite app_nil_r. destruct plan; reflexivity. Qed.

Lemma add_checks_cons (plan : Plan) (n : Node) (ns : list Node) :
  add_checks (add_check plan n) ns = add_checks plan (n :: ns).
Proof. unfold add_checks, add_check. cbn. rewrite <- app_assoc. reflexivity. Qed.

Lemma loop_over_top_level (items : list PlanTree) :
  top_level ops checkOp c items = true ->
  forall (fuel : nat) (plan : Plan) (f : PlanGistFactory) (rest : list byte)
         (s : list Node),
    catalog f = Some c ->
    decodeLoop (decodeOperatorBody ops) checkOp (list_sum (map size items) + fuel) plan
      (at_state f (List.concat (map records items) ++ rest) s)
    = decodeLoop (decodeOperatorBody ops) checkOp fuel
        (add_checks plan (map (expected_node ops c) (checks_of checkOp items)))
        (at_state f rest (s ++ map (expected_node ops c) (operands_of checkOp items))).
Proof.
  induction items as [|t items IH]; intros Htop fuel plan f rest s Hcat.
  - cbn. rewrite app_nil_r, add_checks_nil. reflexivity.
  - cbn [top_level forallb] in Htop. apply andb_true_iff in Htop.
    destruct Htop as [Ht Hitems].
    change (list_sum (map size (t :: items)))
      with (size t + list_sum (map size items))%nat.
    cbn [map List.concat]. rewrite <- app_assoc, <- Nat.add_assoc.
    unfold checks_of, operands_of. cbn [filter].
    apply orb_true_iff in Ht. destruct Ht as [Hplain|Hcheck].
    + rewrite (well_formed_is_not_check t Hplain). cbn [negb map].
      rewrite (loop_over_tree ops checkOp c t Hplain _ plan f _ s Hcat).
      rewrite (IH Hitems fuel plan f rest _ Hcat).
      rewrite <- app_assoc. reflexivity.
    + rewrite (check_tree_is_check t Hcheck). cbn [negb map].
      rewrite (loop_over_check t Hcheck _ plan f _ s Hcat).
      rewrite (IH Hitems fuel _ f rest s Hcat).
      rewrite add_checks_cons. reflexivity.
Qed.

(** The decode of a whole gist: the checks go to [Checks], the last of the
    other trees is the root, the earlier ones are the subqueries. *)
Lemma decode_of_encoded_plan (SC : panic_value -> option error)
  (items subqueries : list PlanTree) (root : PlanTree) :
  top_level ops checkOp c items = true ->
  operands_of checkOp items = subqueries ++ [root] ->
  DecodePlanGistToPlan (decodeOperatorBody ops) checkOp SC
    (inl (buffer (encodeForest items NewPlanGistFactory))) (Some c)
  = Returned
      (Some {| Root := Some (expected_node ops c root);
               Subqueries := map (fun n => {| SubqueryRoot := n |})
                               (map (expected_node ops c) subqueries);
               Checks := map (expected_node ops c) (checks_of checkOp items) |})
      None.
Proof.
  intros Htop Hops.
  rewrite (encodeForest_grown items
             (proj2 (Forall_forall _ items) (fun t _ => encodeTree_grown t))).
  rewrite NewPlanGistFactory_spec. cbn [buffer grown].
  unfold DecodePlanGistToPlan, runDecode, decodeBody.
  set (bytes := Binary.PutVarint version ++ List.concat (map records items)).
  change (decodeFactory bytes (Some c))
    with (at_state (decodeFactory [] (Some c))
            (Binary.PutVarint version ++ List.concat (map records items)) []).
  rewrite decodeInt_at by (unfold Int64.is_int64, Int64.half, version; lia).
  cbn [Z.eqb version negb Pos.eqb].
  assert (Hsize : (list_sum (map size items)
                   <= List.length (List.concat (map records items)))%nat).
  { clear. induction items as [|t ts IH]; [cbn; lia|].
    change (list_sum (map size (t :: ts)))
      with (size t + list_sum (map size ts))%nat.
    cbn [map List.concat]. rewrite length_app.
    pose proof (size_le_records t). lia. }
  assert (Hfuel : exists k,
             S (List.length bytes) = (list_sum (map size items) + S k)%nat).
  { exists (List.length bytes - list_sum (map size items))%nat. unfold bytes.
    rewrite length_app. lia. }
  destruct Hfuel as [k Hk]. rewrite Hk.
  rewrite <- (app_nil_r (List.concat (map records items))).
  rewrite (loop_over_top_level items Htop (S k) emptyPlan
             (decodeFactory [] (Some c)) [] [] eq_refl).
  cbn [decodeLoop app].
  rewrite decodeOp_at_end by reflexivity.
  cbn [Z.eqb unknownOp].
  rewrite Hops, map_app. cbn [map].
  rewrite popChild_top. reflexivity.
Qed.

End WholePlan.

(** A subquery, a check and the root, in the order of construction. *)
Example decode_of_encoded_plan_example :
  DecodePlanGistToPlan (decodeOperatorBody Ops.table) Ops.errorIfRowsOp catchErrorValues
    (inl (buffer (encodeForest
                    [Scenario.scan; PT Ops.errorIfRowsOp [] [Scenario.scan]; Scenario.plan]
                    NewPlanGistFactory)))
    (Some Scenario.cat)
  = Returned
      (Some {| Root := Some (expected_node Ops.table Scenario.cat Scenario.plan);
               Subqueries := [{| SubqueryRoot :=
                                  expected_node Ops.table Scenario.cat Scenario.scan |}];
               Checks := [expected_node Ops.table Scenario.cat
                            (PT Ops.errorIfRowsOp [] [Scenario.scan])] |})
      None.
Proof. reflexivity. Qed.

(** The scenario decoded under a catalog that knows no table: the tree is
    whole, the table of the scan is nil. *)
Example decode_with_unknown_table :
  DecodePlanGistToPlan (decodeOperatorBody Ops.table) Ops.errorIfRowsOp catchErrorValues
    (inl (buffer Scenario.encoded))
    (Some {| ResolveDataSourceByID := fun _ => inr (ErrCatalog "not found") |})
  = Returned
      (Some {| Root := Some (mkNode Ops.sortOp [AColumnOrdering []]
                               [mkNode Ops.scanOp [ATable None] []]);
               Subqueries := []; Checks := [] |})
      None.
Proof. reflexivity. Qed.

(* ===================================================================== *)
(** ** Scan parameters: one write path, one layout *)
(* ===================================================================== *)

Lemma Write_nil (f : PlanGistFactory) : Write [] f = f.
Proof. rewrite Write_spec. cbn. rewrite app_nil_r. apply factory_eta. Qed.

Lemma Write_app (a b : list byte) (f : PlanGistFactory) :
  Write b (Write a f) = Write (a ++ b) f.
Proof. rewrite !Write_spec. cbn. rewrite <- app_assoc, fold_app. reflexivity. Qed.

Lemma Write_chunks (chunks : list (list byte)) :
  forall f, fold_left (fun f data => Write data f) chunks f = Write (List.concat chunks) f.
Proof.
  induction chunks as [|d chunks IH]; intros f; cbn [fold_left List.concat].
  - symmetry. apply Write_nil.
  - rewrite IH, Write_app. reflexivity.
Qed.

Section ScanParamsFacts.

Variable FastIntSet : Type.
Variable Encode : FastIntSet -> list (list byte) * option error.
Variable Decode : list byte -> (FastIntSet * option error) * list byte.

(** [encodeScanParams] is one [Write] of those bytes: buffer and hash get
    the same. *)
Lemma encodeScanParams_Write (params : ScanParams FastIntSet)
  (chunks : list (list byte)) (f : PlanGistFactory) :
  Encode (NeededCols params) = (chunks, None) ->
  encodeScanParams Encode params f
  = (Ok tt, Write (scan_params_bytes chunks params) f).
Proof.
  intros HE. unfold encodeScanParams, scan_params_bytes, encodeInt.
  rewrite HE. cbv zeta. rewrite Write_chunks, !Write_app, <- ?app_assoc. reflexivity.
Qed.

(** [decodeScanParams] reads them back in the order they were written,
    provided [Decode] reads what [Encode] wrote. *)
Lemma decodeScanParams_encoded (params : ScanParams FastIntSet)
  (chunks : list (list byte)) (rest : list byte) (f : PlanGistFactory) :
  (forall tail, Decode (List.concat chunks ++ tail) = ((NeededCols params, None), tail)) ->
  Int64.is_int64 (count_or_zero (IndexConstraint params)) ->
  Int64.is_int64 (count_or_zero (InvertedConstraint params)) ->
  Int64.is_int64 (HardLimit params) ->
  decodeScanParams Decode (set_buffer f (scan_params_bytes chunks params ++ rest))
  = (Ok {| NeededCols := NeededCols params;
           IndexConstraint :=
             if 0 <? count_or_zero (IndexConstraint params) then Some 1 else None;
           InvertedConstraint :=
             if 0 <? count_or_zero (InvertedConstraint params)
             then Some (count_or_zero (InvertedConstraint params)) else None;
           HardLimit := HardLimit params |},
     set_buffer f rest).
Proof.
  intros HD H1 H2 H3. unfold decodeScanParams, scan_params_bytes.
  cbn [buffer set_buffer]. rewrite <- !app_assoc, HD.
  match goal with
  | |- context [set_buffer (set_buffer f ?a) ?b] =>
      change (set_buffer (set_buffer f a) b) with (set_buffer f b)
  end.
  unfold bind at 1. rewrite (decodeInt_PutVarint _ _ f H1).
  unfold bind at 1. rewrite (decodeInt_PutVarint _ _ f H2).
  unfold bind at 1. rewrite (decodeInt_PutVarint _ _ f H3).
  reflexivity.
Qed.

End ScanParamsFacts.

(* ===================================================================== *)
(** ** Further properties of the primitives *)
(* ===================================================================== *)

Lemma PutUvarint_length (n : nat) :
  forall x, 0 <= x < 2 ^ (7 * Z.of_nat (S n)) ->
    (1 <= List.length (Binary.PutUvarint x) <= S n)%nat.
Proof.
  induction n as [|n IH]; intros x Hx; rewrite BinaryFacts.PutUvarint_unfold;
    destruct (Z_le_dec 128 x) as [Hbig|Hsmall]; cbn [List.length]; try lia.
  assert (Hq : 0 <= Z.shiftr x 7 < 2 ^ (7 * Z.of_nat (S n))).
  { rewrite Z.shiftr_div_pow2 by lia. change (2 ^ 7) with 128.
    split; [apply Z.div_pos; lia|].
    apply Z.div_lt_upper_bound; [lia|].
    replace (7 * Z.of_nat (S (S n))) with (7 + 7 * Z.of_nat (S n)) in Hx by lia.
    rewrite Z.pow_add_r in Hx by lia. change (2 ^ 7) with 128 in Hx. lia. }
  specialize (IH _ Hq). lia.
Qed.

(** X1.  An int written by [encodeInt] on an empty buffer is read back by
    [decodeInt] as the same int, whatever bytes follow it, and those bytes
    are what is left in the buffer. *)
Theorem encodeInt_decodeInt_round_trip
  (i : Z) (f : PlanGistFactory) (rest : list byte) :
  Int64.is_int64 i ->
  buffer f = [] ->
  decodeInt (buffer_Write rest (encodeInt i f))
  = (Ok i, set_buffer (encodeInt i f) rest).
Proof.
  intros Hi Hf.
  assert (H : buffer (encodeInt i f) = Binary.PutVarint i)
    by (unfold encodeInt; rewrite Write_spec; cbn [buffer]; rewrite Hf; reflexivity).
  unfold buffer_Write. rewrite H. apply decodeInt_PutVarint. exact Hi.
Qed.

Lemma encodeInt_decodeInt_round_trip_witness :
  decodeInt (buffer_Write [xff] (encodeInt (- 300) (decodeFactory [] None)))
  = (Ok (- 300), set_buffer (encodeInt (- 300) (decodeFactory [] None)) [xff]).
Proof.
  apply (encodeInt_decodeInt_round_trip (- 300) (decodeFactory [] None) [xff]).
  - unfold Int64.is_int64, Int64.half. lia.
  - reflexivity.
Defined.

(** X2.  [encodeInt] appends at least one byte and at most
    [binary.MaxVarintLen64] bytes: the varint of an int64 always fits the
    scratch array the function declares. *)
Theorem encodeInt_fits_its_scratch_array (i : Z) (f : PlanGistFactory) :
  Int64.is_int64 i ->
  exists data,
    buffer (encodeInt i f) = buffer f ++ data
    /\ (1 <= List.length data <= Binary.MaxVarintLen64)%nat.
Proof.
  intros Hi. exists (Binary.PutVarint i). split; [reflexivity|].
  unfold Binary.PutVarint, Binary.MaxVarintLen64.
  apply (PutUvarint_length 9).
  pose proof (BinaryFacts.zigzag_range i Hi) as Hz.
  unfold Int64.is_uint64, Int64.modulus in Hz.
  change (2 ^ (7 * Z.of_nat 10)) with (2 ^ 70). lia.
Qed.

Lemma encodeInt_fits_its_scratch_array_witness :
  exists data,
    buffer (encodeInt (- 2 ^ 63) NewPlanGistFactory)
    = buffer NewPlanGistFactory ++ data
    /\ (1 <= List.length data <= Binary.MaxVarintLen64)%nat.
Proof.
  apply (encodeInt_fits_its_scratch_array (- 2 ^ 63) NewPlanGistFactory).
  unfold Int64.is_int64, Int64.half. lia.
Defined.

Lemma ReadUvarint_loop_continuations (n : nat) :
  forall x s buf,
    forallb is_continuation buf = true ->
    exists e y rest, Binary.ReadUvarint_loop n x s buf = ((y, Some e), rest).
Proof.
  induction n as [|n IH]; intros x s buf Hall; cbn [Binary.ReadUvarint_loop].
  - eauto.
  - destruct buf as [|b buf]; [eauto|].
    cbn [forallb] in Hall. apply andb_true_iff in Hall. destruct Hall as [Hb Hrest].
    unfold is_continuation in Hb. apply Z.leb_le in Hb.
    destruct (Z.ltb_spec (GoByte.to_Z b) 128) as [Hlt|_]; [lia|].
    apply IH. exact Hrest.
Qed.

(** X3.  On a buffer that ends inside a varint, or has nothing but
    continuation bytes (every byte with its high bit set, the empty buffer
    included), [decodeInt] panics with an error value: it never returns a
    number made of a partial varint. *)
Theorem decodeInt_panics_on_unfinished_varint (f : PlanGistFactory) :
  forallb is_continuation (buffer f) = true ->
  exists e f', decodeInt f = (Panic (PanicError e), f').
Proof.
  intros Hall. unfold decodeInt, Binary.ReadVarint, Binary.ReadUvarint.
  destruct (ReadUvarint_loop_continuations Binary.MaxVarintLen64 0 0 (buffer f) Hall)
    as [e [y [rest H]]].
  rewrite H. eauto.
Qed.

Lemma decodeInt_panics_on_unfinished_varint_witness :
  exists e f', decodeInt (decodeFactory [xd8; x84] None) = (Panic (PanicError e), f').
Proof.
  apply (decodeInt_panics_on_unfinished_varint (decodeFactory [xd8; x84] None)).
  reflexivity.
Defined.

(** X4.  An id of the whole [uint64] range, the top half included, comes
    back from [decodeID] as it went into [encodeDataSource] or [encodeID],
    although it travels as an [int64] varint; and [decodeSchema] consumes
    what [encodeID] wrote and nothing more. *)
Theorem ids_round_trip
  (id : Z) (name : string) (f : PlanGistFactory) (rest : list byte) :
  Int64.is_uint64 id ->
  buffer f = [] ->
  decodeID (buffer_Write rest (encodeDataSource id name f))
  = (Ok id, set_buffer (encodeDataSource id name f) rest)
  /\ decodeID (buffer_Write rest (encodeID id f))
     = (Ok id, set_buffer (encodeID id f) rest)
  /\ decodeSchema (buffer_Write rest (encodeID id f))
     = (Ok tt, set_buffer (encodeID id f) rest).
Proof.
  intros Hid Hf.
  assert (H1 : buffer (encodeDataSource id name f)
               = Binary.PutVarint (Int64.to_signed id))
    by (rewrite encodeDataSource_spec; cbn [buffer]; rewrite Hf; reflexivity).
  assert (H2 : buffer (encodeID id f) = Binary.PutVarint (Int64.to_signed id))
    by (unfold encodeID, encodeInt; rewrite Write_spec; cbn [buffer]; rewrite Hf;
        reflexivity).
  unfold buffer_Write. rewrite H1, H2.
  split; [apply decodeID_PutVarint; exact Hid|].
  split; [apply decodeID_PutVarint; exact Hid|].
  unfold decodeSchema, bind. rewrite decodeID_PutVarint by exact Hid. reflexivity.
Qed.

Lemma ids_round_trip_witness :
  decodeID (buffer_Write [x11]
              (encodeDataSource (2 ^ 64 - 1) "orders" (decodeFactory [] None)))
  = (Ok (2 ^ 64 - 1),
     set_buffer (encodeDataSource (2 ^ 64 - 1) "orders" (decodeFactory [] None)) [x11]).
Proof.
  apply (ids_round_trip (2 ^ 64 - 1) "orders" (decodeFactory [] None) [x11]).
  - unfold Int64.is_uint64, Int64.modulus. lia.
  - reflexivity.
Defined.

(** X5.  The varint of [encodeInt] is self-delimiting: if the bytes two
    ints were encoded to, each followed by anything, are the same bytes,
    then the ints are the same and so is what follows them. *)
Theorem encodeInt_is_unambiguous
  (x y : Z) (f : PlanGistFactory) (r1 r2 : list byte) :
  Int64.is_int64 x -> Int64.is_int64 y ->
  buffer (encodeInt x f) ++ r1 = buffer (encodeInt y f) ++ r2 ->
  x = y /\ r1 = r2.
Proof.
  intros Hx Hy H. unfold encodeInt in H. rewrite !Write_spec in H.
  cbn [buffer] in H. rewrite <- !app_assoc in H. apply app_inv_head in H.
  pose proof (BinaryFacts.ReadVarint_PutVarint x r1 Hx) as Rx.
  pose proof (BinaryFacts.ReadVarint_PutVarint y r2 Hy) as Ry.
  rewrite H in Rx. rewrite Rx in Ry. inversion Ry. split; reflexivity.
Qed.

Lemma encodeInt_is_unambiguous_witness :
  128 = 128 /\ [x01] = [x01].
Proof.
  apply (encodeInt_is_unambiguous 128 128 NewPlanGistFactory [x01] [x01]).
  - unfold Int64.is_int64, Int64.half. lia.
  - unfold Int64.is_int64, Int64.half. lia.
  - reflexivity.
Defined.

(** X6.  What [decodeTable] does with an id is decided by the catalog: a
    table gives that table, an id the catalog cannot resolve gives nil, and
    an id that resolves to a data source other than a table (a view, a
    sequence) fails the type assertion, which is a panic of the runtime and
    not an unknown table.  In each case the id bytes are consumed. *)
Theorem decodeTable_follows_the_catalog
  (id : Z) (c : Catalog) (f : PlanGistFactory) (rest : list byte) :
  Int64.is_uint64 id ->
  catalog f = Some c ->
  decodeTable (set_buffer f (Binary.PutVarint (Int64.to_signed id) ++ rest))
  = match ResolveDataSourceByID c id with
    | inl (DSTable t) => (Ok (Some t), set_buffer f rest)
    | inl _ => (Panic (PanicRuntime TypeAssertionFailed), set_buffer f rest)
    | inr _ => (Ok None, set_buffer f rest)
    end.
Proof.
  intros Hid Hcat. unfold decodeTable, bind.
  rewrite decodeID_PutVarint by exact Hid.
  cbn [catalog set_buffer]. rewrite Hcat.
  destruct (ResolveDataSourceByID c id) as [[t| |]|e]; reflexivity.
Qed.

(** Id 5 names a view in this catalog. *)
Lemma decodeTable_follows_the_catalog_witness :
  decodeTable
    (set_buffer (decodeFactory [] (Some Samples.views))
       (Binary.PutVarint (Int64.to_signed 5) ++ [x11]))
  = (Panic (PanicRuntime TypeAssertionFailed),
     set_buffer (decodeFactory [] (Some Samples.views)) [x11]).
Proof.
  apply (decodeTable_follows_the_catalog 5 Samples.views
           (decodeFactory [] (Some Samples.views)) [x11]).
  - unfold Int64.is_uint64, Int64.modulus. lia.
  - reflexivity.
Defined.

Lemma findIndex_spec (id : Z) (indexes : list Index) :
  match findIndex id indexes with
  | Some idx =>
      exists before after,
        indexes = before ++ idx :: after
        /\ IndexID idx = id
        /\ Forall (fun i => IndexID i <> id) before
  | None => Forall (fun i => IndexID i <> id) indexes
  end.
Proof.
  induction indexes as [|i l IH]; cbn [findIndex]; [constructor|].
  destruct (Z.eqb_spec (IndexID i) id) as [E|N].
  - exists [], l. repeat split; [exact E | constructor].
  - destruct (findIndex id l) as [idx|].
    + destruct IH as [before [after [Hl [Hid Hbefore]]]].
      exists (i :: before), after. subst l. repeat split; [exact Hid|].
      constructor; assumption.
    + constructor; assumption.
Qed.

(** X7.  [decodeIndex] on a table returns the first index of the table, in
    the order of [Index(0)], [Index(1)], ..., whose id is the decoded id,
    and nil exactly when the table has no index of that id; on a nil table
    it returns nil.  Either way the id bytes are consumed. *)
Theorem decodeIndex_finds_the_first_match
  (id : Z) (t : Table) (f : PlanGistFactory) (rest : list byte) :
  Int64.is_uint64 id ->
  (exists r,
      decodeIndex (Some t)
        (set_buffer f (Binary.PutVarint (Int64.to_signed id) ++ rest))
      = (Ok r, set_buffer f rest)
      /\ match r with
         | Some idx =>
             exists before after,
               TableIndexes t = before ++ idx :: after
               /\ IndexID idx = id
               /\ Forall (fun i => IndexID i <> id) before
         | None => Forall (fun i => IndexID i <> id) (TableIndexes t)
         end)
  /\ decodeIndex None (set_buffer f (Binary.PutVarint (Int64.to_signed id) ++ rest))
     = (Ok None, set_buffer f rest).
Proof.
  intros Hid. unfold decodeIndex, bind.
  rewrite decodeID_PutVarint by exact Hid. split; [|reflexivity].
  exists (findIndex id (TableIndexes t)). split; [reflexivity|].
  apply findIndex_spec.
Qed.

(** A table with two indexes of id 2. *)
Lemma decodeIndex_finds_the_first_match_witness :
  (exists r,
      decodeIndex (Some Samples.indexed)
        (set_buffer NewPlanGistFactory (Binary.PutVarint (Int64.to_signed 2) ++ [x11]))
      = (Ok r, set_buffer NewPlanGistFactory [x11])
      /\ match r with
         | Some idx =>
             exists before after,
               TableIndexes Samples.indexed = before ++ idx :: after
               /\ IndexID idx = 2
               /\ Forall (fun i => IndexID i <> 2) before
         | None => Forall (fun i => IndexID i <> 2) (TableIndexes Samples.indexed)
         end)
  /\ decodeIndex None
       (set_buffer NewPlanGistFactory (Binary.PutVarint (Int64.to_signed 2) ++ [x11]))
     = (Ok None, set_buffer NewPlanGistFactory [x11]).
Proof.
  apply (decodeIndex_finds_the_first_match 2 Samples.indexed NewPlanGistFactory [x11]).
  unfold Int64.is_uint64, Int64.modulus. lia.
Defined.

Example decodeIndex_returns_the_first_of_two :
  decodeIndex (Some Samples.indexed)
    (set_buffer NewPlanGistFactory (Binary.PutVarint (Int64.to_signed 2) ++ [x11]))
  = (Ok (Some {| IndexID := 2; IndexName := "a" |}), set_buffer NewPlanGistFactory [x11]).
Proof. reflexivity. Qed.

(** X8.  [popChild] takes the node pushed last off the stack and leaves the
    nodes below it, the buffer and the hash as they were; on an empty stack
    it is the runtime's index-out-of-range panic at index -1 and the
    factory is unchanged. *)
Theorem popChild_takes_the_last_node (f : PlanGistFactory) :
  popChild f
  = match rev (nodeStack f) with
    | [] => (Panic (PanicRuntime (IndexOutOfRange (-1) 0)), f)
    | n :: below => (Ok n, set_nodeStack f (rev below))
    end.
Proof.
  destruct f as [b h s c]. cbn [nodeStack].
  induction s as [|n0 s0 _] using rev_ind; [reflexivity|].
  rewrite rev_app_distr. cbn [rev app]. rewrite rev_involutive.
  apply (popChild_top {| buffer := b; hash := h; nodeStack := []; catalog := c |}
           b s0 n0).
Qed.

(** X9.  A count that decodes to a negative number makes each of the three
    list decoders panic in [make] with a fault of the runtime, after the
    count has been consumed: it is not reported through [panic(err)]. *)
Theorem negative_count_is_a_runtime_panic
  (l : Z) (f : PlanGistFactory) (rest : list byte) :
  Int64.is_int64 l ->
  l < 0 ->
  decodeNodeColumnOrdinals (set_buffer f (Binary.PutVarint l ++ rest))
  = (Panic (PanicRuntime MakesliceLenOutOfRange), set_buffer f rest)
  /\ decodeResultColumns (set_buffer f (Binary.PutVarint l ++ rest))
     = (Panic (PanicRuntime MakesliceLenOutOfRange), set_buffer f rest)
  /\ decodeRows (set_buffer f (Binary.PutVarint l ++ rest))
     = (Panic (PanicRuntime MakesliceLenOutOfRange), set_buffer f rest).
Proof.
  intros Hl Hneg.
  unfold decodeNodeColumnOrdinals, decodeResultColumns, decodeRows, bind.
  rewrite decodeInt_PutVarint by exact Hl.
  unfold make. destruct (Z.ltb_spec l 0) as [_|H]; [|lia].
  repeat split.
Qed.

(** The single byte 0x01 is the varint of -1. *)
Lemma negative_count_is_a_runtime_panic_witness :
  decodeRows (set_buffer NewPlanGistFactory ([x01] ++ [x11]))
  = (Panic (PanicRuntime MakesliceLenOutOfRange), set_buffer NewPlanGistFactory [x11]).
Proof.
  apply (negative_count_is_a_runtime_panic (-1) NewPlanGistFactory [x11]).
  - unfold Int64.is_int64, Int64.half. lia.
  - lia.
Defined.

(** X10.  A bool or a byte written on an empty buffer is read back as it
    was written, one byte being consumed, and reading a byte from an empty
    buffer panics with [io.EOF]. *)
Theorem bytes_and_bools_round_trip
  (b : bool) (x : byte) (f : PlanGistFactory) (rest : list byte) :
  buffer f = [] ->
  decodeBool (buffer_Write rest (encodeBool b f))
  = (Ok b, set_buffer (encodeBool b f) rest)
  /\ decodeByte (buffer_Write rest (encodeByte x f))
     = (Ok x, set_buffer (encodeByte x f) rest)
  /\ decodeJoinType (buffer_Write rest (encodeByte x f))
     = (Ok x, set_buffer (encodeByte x f) rest)
  /\ decodeByte f = (Panic (PanicError EOF), f).
Proof.
  intros Hf.
  assert (Hx : buffer (encodeByte x f) = [x])
    by (unfold encodeByte; rewrite Write_spec; cbn [buffer]; rewrite Hf; reflexivity).
  assert (Hb : buffer (encodeBool b f) = [if b then x01 else x00])
    by (destruct b; unfold encodeBool, encodeByte; rewrite Write_spec;
        cbn [buffer]; rewrite Hf; reflexivity).
  unfold decodeJoinType, decodeBool, bind, decodeByte, buffer_ReadByte, buffer_Write.
  cbn [buffer set_buffer]. rewrite Hx, Hb, Hf. cbn [app].
  repeat split. destruct b; reflexivity.
Qed.

Lemma bytes_and_bools_round_trip_witness :
  decodeBool (buffer_Write [x11] (encodeBool true (decodeFactory [] None)))
  = (Ok true, set_buffer (encodeBool true (decodeFactory [] None)) [x11]).
Proof.
  apply (bytes_and_bools_round_trip true x00 (decodeFactory [] None) [x11]).
  reflexivity.
Defined.

(* ===================================================================== *)
(** ** Further properties of [DecodePlanGistToPlan] *)
(* ===================================================================== *)

(** X11.  The loop of [DecodePlanGistToPlan] ends on every input: with
    operator decoders that only read the buffer, each turn that does not
    leave the loop consumes at least the opcode byte, so the call returns
    or panics after at most one turn more than there are bytes. *)
Theorem decode_always_finishes
  (D : execOperator -> M (Node + error)) (checkOp : execOperator)
  (SC : panic_value -> option error) (decoded : list byte + error)
  (cat : option Catalog) :
  (forall op, reads_only (D op)) ->
  finished (DecodePlanGistToPlan D checkOp SC decoded cat) = true.
Proof.
  intros HD. pose proof (decode_is_total D checkOp SC HD decoded cat) as H.
  destruct (DecodePlanGistToPlan D checkOp SC decoded cat);
    [reflexivity | reflexivity | contradiction].
Qed.

(** Bytes that are no gist of any plan. *)
Lemma decode_always_finishes_witness :
  finished
    (DecodePlanGistToPlan (decodeOperatorBody Ops.table) Ops.errorIfRowsOp catchErrorValues
       (inl [x02; x09; x00; x01; x11; x29; x29]) (Some Scenario.cat))
  = true.
Proof.
  apply (decode_always_finishes (decodeOperatorBody Ops.table) Ops.errorIfRowsOp
           catchErrorValues (inl [x02; x09; x00; x01; x11; x29; x29]) (Some Scenario.cat)).
  intros op. apply reads_only_decodeOperatorBody.
Defined.

Section LoopInvariants.

Variable D : execOperator -> M (Node + error).
Variable checkOp : execOperator.
Variable SC : panic_value -> option error.

(** An opcode other than [unknownOp] comes back from [decodeOp] with the
    node of that opcode on top of the stack. *)
Lemma decodeOp_pushes (f f1 : PlanGistFactory) (op : execOperator) :
  decodeOp D f = (Ok op, f1) ->
  op <> unknownOp ->
  exists s n, nodeStack f1 = s ++ [n] /\ node_op n = op.
Proof.
  unfold decodeOp, buffer_ReadByte. intros H Hop.
  destruct (buffer f) as [|b rest].
  - inversion H; subst. contradiction.
  - destruct (GoByte.to_Z b =? 0).
    + inversion H; subst. contradiction.
    + destruct (D (GoByte.to_Z b) (set_buffer f rest)) as [[[n|e]|p] f2];
        inversion H; subst.
      exists (nodeStack f2), n. split; reflexivity.
Qed.

Lemma popChild_of_top (f : PlanGistFactory) (s : list Node) (n : Node) :
  nodeStack f = s ++ [n] -> popChild f = (Ok n, set_nodeStack f s).
Proof.
  intros H. destruct f as [b h st c]. cbn [nodeStack] in H. subst st.
  apply (popChild_top {| buffer := b; hash := h; nodeStack := []; catalog := c |}
           b s n).
Qed.

Lemma decodeLoop_keeps_checks (fuel : nat) :
  forall plan f,
    Forall (fun n => node_op n = checkOp) (Checks plan) ->
    Forall (fun n => node_op n = checkOp)
      (Checks (snd (fst (decodeLoop D checkOp fuel plan f)))).
Proof.
  induction fuel as [|fuel IH]; intros plan f Hplan; cbn [decodeLoop]; [exact Hplan|].
  destruct (decodeOp D f) as [[op|p] f1] eqn:Eop; [|exact Hplan].
  destruct (Z.eqb_spec op unknownOp) as [E0|N0]; [exact Hplan|].
  destruct (Z.eqb_spec op checkOp) as [Ec|Nc]; [|apply IH; exact Hplan].
  destruct (decodeOp_pushes f f1 op Eop N0) as [s [n [Hs Hn]]].
  rewrite (popChild_of_top f1 s n Hs).
  apply IH. unfold add_check. cbn [Checks].
  apply Forall_app. split; [exact Hplan|].
  constructor; [congruence | constructor].
Qed.

Lemma decodeBody_keeps_checks (fuel : nat) (plan : Plan) (f : PlanGistFactory) :
  Forall (fun n => node_op n = checkOp) (Checks plan) ->
  Forall (fun n => node_op n = checkOp)
    (Checks (snd (fst (decodeBody D checkOp fuel plan f)))).
Proof.
  intros Hplan. unfold decodeBody.
  destruct (decodeInt f) as [[ver|p] f1]; [|exact Hplan].
  destruct (negb (ver =? version)); [exact Hplan|].
  pose proof (decodeLoop_keeps_checks fuel plan f1 Hplan) as Hloop.
  destruct (decodeLoop D checkOp fuel plan f1) as [[[| r |] plan1] f2];
    cbn [fst snd] in Hloop; try exact Hloop.
  destruct (popChild f2) as [[n|p] f3]; exact Hloop.
Qed.

Lemma decodeBody_returns_the_plan (fuel : nat) (plan : Plan) (f : PlanGistFactory)
  (p : Plan) (e : option error) (plan' : Plan) (f' : PlanGistFactory) :
  decodeBody D checkOp fuel plan f = (BodyReturn (Some p) e, plan', f') ->
  p = plan' /\ e = None /\ exists n, Root p = Some n.
Proof.
  unfold decodeBody.
  destruct (decodeInt f) as [[ver|r] f1]; [|discriminate].
  destruct (negb (ver =? version)); [discriminate|].
  destruct (decodeLoop D checkOp fuel plan f1) as [[[| r |] plan1] f2];
    try discriminate.
  destruct (popChild f2) as [[n|r] f3]; [|discriminate].
  intros H. inversion H; subst. repeat split. exists n. reflexivity.
Qed.

Lemma decodeBody_nil_plan (fuel : nat) (plan : Plan) (f : PlanGistFactory)
  (e : option error) (plan' : Plan) (f' : PlanGistFactory) :
  decodeBody D checkOp fuel plan f = (BodyReturn None e, plan', f') ->
  exists v, e = Some (ErrUnsupportedVersion v).
Proof.
  unfold decodeBody.
  destruct (decodeInt f) as [[ver|r] f1]; [|discriminate].
  destruct (negb (ver =? version)).
  - intros H. inversion H; subst. exists ver. reflexivity.
  - destruct (decodeLoop D checkOp fuel plan f1) as [[[| r |] plan1] f2];
      try discriminate.
    destruct (popChild f2) as [[n|r] f3]; discriminate.
Qed.

(** X12.  Every node in the [Checks] of a plan that [DecodePlanGistToPlan]
    returns, with or without an error beside it, has the operator
    [errorIfRowsOp]: the loop moves a node to the checks only when it is
    the node [decodeOp] has just pushed for that opcode. *)
Theorem checks_are_error_if_rows_nodes
  (decoded : list byte + error) (cat : option Catalog)
  (plan : Plan) (e : option error) :
  DecodePlanGistToPlan D checkOp SC decoded cat = Returned (Some plan) e ->
  Forall (fun n => node_op n = checkOp) (Checks plan).
Proof.
  unfold DecodePlanGistToPlan, runDecode.
  destruct decoded as [bytes|err]; [|discriminate].
  pose proof (decodeBody_keeps_checks (S (List.length bytes)) emptyPlan
                (decodeFactory bytes cat) (Forall_nil _)) as Hkeep.
  pose proof (decodeBody_returns_the_plan (S (List.length bytes)) emptyPlan
                (decodeFactory bytes cat)) as Hret.
  destruct (decodeBody D checkOp (S (List.length bytes)) emptyPlan
              (decodeFactory bytes cat)) as [[b plan'] f'].
  cbn [fst snd recovered] in *. intros H.
  destruct b as [p err|r|]; cbn [recovered] in H.
  - inversion H; subst.
    destruct (Hret plan e plan' f' eq_refl) as [-> _]. exact Hkeep.
  - destruct (SC r); inversion H; subst. exact Hkeep.
  - discriminate.
Qed.

(** X13.  When [DecodePlanGistToPlan] returns a nil error, the plan is not
    nil and has a root. *)
Theorem nil_error_means_a_root
  (decoded : list byte + error) (cat : option Catalog) (p : option Plan) :
  DecodePlanGistToPlan D checkOp SC decoded cat = Returned p None ->
  exists plan n, p = Some plan /\ Root plan = Some n.
Proof.
  unfold DecodePlanGistToPlan, runDecode.
  destruct decoded as [bytes|err]; [|discriminate].
  pose proof (decodeBody_returns_the_plan (S (List.length bytes)) emptyPlan
                (decodeFactory bytes cat)) as Hret.
  pose proof (decodeBody_nil_plan (S (List.length bytes)) emptyPlan
                (decodeFactory bytes cat)) as Hnil.
  destruct (decodeBody D checkOp (S (List.length bytes)) emptyPlan
              (decodeFactory bytes cat)) as [[b plan'] f'].
  cbn [fst recovered]. intros H.
  destruct b as [q err|r|]; cbn [recovered] in H.
  - inversion H; subst. destruct p as [plan|].
    + destruct (Hret plan None plan' f' eq_refl) as [_ [_ [n Hn]]].
      exists plan, n. split; [reflexivity | exact Hn].
    + destruct (Hnil None plan' f' eq_refl) as [v Hv]. discriminate.
  - destruct (SC r); discriminate.
  - discriminate.
Qed.

End LoopInvariants.

Lemma checks_are_error_if_rows_nodes_witness :
  Forall (fun n => node_op n = Ops.errorIfRowsOp) (Checks Samples.decoded).
Proof.
  apply (checks_are_error_if_rows_nodes (decodeOperatorBody Ops.table)
           Ops.errorIfRowsOp catchErrorValues
           (inl (buffer (encodeForest Samples.forest NewPlanGistFactory)))
           (Some Scenario.cat) Samples.decoded None).
  reflexivity.
Defined.

Lemma nil_error_means_a_root_witness :
  exists plan n, Some Samples.decoded = Some plan /\ Root plan = Some n.
Proof.
  apply (nil_error_means_a_root (decodeOperatorBody Ops.table)
           Ops.errorIfRowsOp catchErrorValues
           (inl (buffer (encodeForest Samples.forest NewPlanGistFactory)))
           (Some Scenario.cat) (Some Samples.decoded)).
  reflexivity.
Defined.

(** X14.  A whole gist, over the operator table.  Let the builder construct
    any number of trees at top level, each a check (a tree rooted at
    [errorIfRowsOp]) or a tree without that operator, the last of the
    latter being the root; and let the bytes it wrote be followed by
    nothing, or by a zero byte and anything.  Decoding returns, with a nil
    error, the plan whose root is the node of the last tree that is no
    check, whose subqueries are the nodes of the earlier ones in order, and
    whose checks are the nodes of the checks in order; what follows the
    zero byte is not looked at. *)
Theorem whole_plan_round_trip
  (ops : operatorTable) (checkOp : execOperator) (c : Catalog)
  (SC : panic_value -> option error)
  (items subqueries : list PlanTree) (root : PlanTree) (trailer : list byte) :
  top_level ops checkOp c items = true ->
  operands_of checkOp items = subqueries ++ [root] ->
  match trailer with
  | [] => true
  | b :: _ => GoByte.to_Z b =? 0
  end = true ->
  DecodePlanGistToPlan (decodeOperatorBody ops) checkOp SC
    (inl (buffer (encodeForest items NewPlanGistFactory) ++ trailer)) (Some c)
  = Returned
      (Some {| Root := Some (expected_node ops c root);
               Subqueries := map (fun n => {| SubqueryRoot := n |})
                               (map (expected_node ops c) subqueries);
               Checks := map (expected_node ops c) (checks_of checkOp items) |})
      None.
Proof.
  intros Htop Hops Htrail.
  rewrite (encodeForest_grown items
             (proj2 (Forall_forall _ items) (fun t _ => encodeTree_grown t))).
  rewrite NewPlanGistFactory_spec. cbn [buffer grown].
  unfold DecodePlanGistToPlan, runDecode, decodeBody.
  rewrite <- app_assoc.
  set (bytes := Binary.PutVarint version ++ List.concat (map records items) ++ trailer).
  change (decodeFactory bytes (Some c))
    with (at_state (decodeFactory [] (Some c))
            (Binary.PutVarint version ++ List.concat (map records items) ++ trailer) []).
  rewrite decodeInt_at by (unfold Int64.is_int64, Int64.half, version; lia).
  cbn [Z.eqb version negb Pos.eqb].
  assert (Hsize : (list_sum (map size items)
                   <= List.length (List.concat (map records items)))%nat).
  { clear. induction items as [|t ts IH]; [cbn; lia|].
    change (list_sum (map size (t :: ts)))
      with (size t + list_sum (map size ts))%nat.
    cbn [map List.concat]. rewrite length_app.
    pose proof (size_le_records t). lia. }
  assert (Hfuel : exists k,
             S (List.length bytes) = (list_sum (map size items) + S k)%nat).
  { exists (List.length bytes - list_sum (map size items))%nat. unfold bytes.
    rewrite !length_app. lia. }
  destruct Hfuel as [k Hk]. rewrite Hk.
  rewrite (loop_over_top_level ops checkOp c items Htop (S k) emptyPlan
             (decodeFactory [] (Some c)) trailer [] eq_refl).
  cbn [decodeLoop app].
  assert (Hend : decodeOp (decodeOperatorBody ops)
                   (at_state (decodeFactory [] (Some c)) trailer
                      (map (expected_node ops c) (operands_of checkOp items)))
                 = (Ok unknownOp,
                    at_state (decodeFactory [] (Some c)) (tl trailer)
                      (map (expected_node ops c) (operands_of checkOp items)))).
  { destruct trailer as [|b junk]; [reflexivity|].
    unfold decodeOp, buffer_ReadByte. cbn [buffer at_state].
    rewrite Htrail. reflexivity. }
  rewrite Hend. cbn [Z.eqb unknownOp].
  rewrite Hops, map_app. cbn [map].
  rewrite popChild_top. reflexivity.
Qed.

Lemma whole_plan_round_trip_witness :
  DecodePlanGistToPlan (decodeOperatorBody Ops.table) Ops.errorIfRowsOp catchErrorValues
    (inl (buffer (encodeForest Samples.forest NewPlanGistFactory) ++ [x00; xff; xff]))
    (Some Scenario.cat)
  = Returned (Some Samples.decoded) None.
Proof.
  apply (whole_plan_round_trip Ops.table Ops.errorIfRowsOp Scenario.cat catchErrorValues
           Samples.forest [Scenario.scan] Scenario.plan [x00; xff; xff]).
  - reflexivity.
  - reflexivity.
  - reflexivity.
Defined.

(** X15.  The scan parameters go through one write path and one layout.
    When [NeededCols.Encode] succeeds, [encodeScanParams] on an empty
    buffer returns normally and has presented to the hash the bytes it
    appended to the buffer; and when [Decode] reads what [Encode] wrote,
    [decodeScanParams] consumes those bytes and no more, gives back the
    needed columns and the hard limit, a nil index constraint exactly when
    the span count written was not positive, and an inverted constraint of
    the length written, or nil when that was not positive. *)
Theorem scan_params_round_trip
  (FastIntSet : Type)
  (Encode : FastIntSet -> list (list byte) * option error)
  (Decode : list byte -> (FastIntSet * option error) * list byte)
  (params : ScanParams FastIntSet) (chunks : list (list byte))
  (f : PlanGistFactory) (rest : list byte) :
  Encode (NeededCols params) = (chunks, None) ->
  (forall tail, Decode (List.concat chunks ++ tail) = ((NeededCols params, None), tail)) ->
  Int64.is_int64 (count_or_zero (IndexConstraint params)) ->
  Int64.is_int64 (count_or_zero (InvertedConstraint params)) ->
  Int64.is_int64 (HardLimit params) ->
  buffer f = [] ->
  exists f1 q,
    encodeScanParams Encode params f = (Ok tt, f1)
    /\ hash f1 = FNV64.fold (hash f) (buffer f1)
    /\ decodeScanParams Decode (buffer_Write rest f1) = (Ok q, set_buffer f1 rest)
    /\ NeededCols q = NeededCols params
    /\ HardLimit q = HardLimit params
    /\ (IndexConstraint q = None <-> count_or_zero (IndexConstraint params) <= 0)
    /\ InvertedConstraint q
       = (if 0 <? count_or_zero (InvertedConstraint params)
          then Some (count_or_zero (InvertedConstraint params)) else None).
Proof.
  intros HE HD H1 H2 H3 Hf.
  eexists. eexists.
  split; [apply (encodeScanParams_Write FastIntSet Encode params chunks f HE)|].
  rewrite Write_spec. cbn [buffer hash]. rewrite Hf. cbn [app].
  split; [reflexivity|].
  split.
  - unfold buffer_Write. cbn [buffer].
    match goal with
    | |- decodeScanParams Decode (set_buffer ?g _) = _ =>
        apply (decodeScanParams_encoded FastIntSet Decode params chunks rest g
                 HD H1 H2 H3)
    end.
  - cbn [NeededCols HardLimit IndexConstraint InvertedConstraint].
    repeat split; try reflexivity.
    + destruct (Z.ltb_spec 0 (count_or_zero (IndexConstraint params)));
        [discriminate | intros _; lia].
    + destruct (Z.ltb_spec 0 (count_or_zero (IndexConstraint params)));
        [lia | reflexivity].
Qed.

Lemma scan_params_round_trip_witness :
  exists f1 q,
    encodeScanParams Samples.set_Encode Samples.scan_params (decodeFactory [] None)
    = (Ok tt, f1)
    /\ hash f1 = FNV64.fold (hash (decodeFactory [] None)) (buffer f1)
    /\ decodeScanParams Samples.set_Decode (buffer_Write [x11] f1)
       = (Ok q, set_buffer f1 [x11])
    /\ NeededCols q = x07
    /\ HardLimit q = 10
    /\ (IndexConstraint q = None <-> 3 <= 0)
    /\ InvertedConstraint q = None.
Proof.
  apply (scan_params_round_trip byte Samples.set_Encode Samples.set_Decode
           Samples.scan_params [[x07]] (decodeFactory [] None) [x11]).
  - reflexivity.
  - intros tail. reflexivity.
  - unfold Int64.is_int64, Int64.half. cbn. lia.
  - unfold Int64.is_int64, Int64.half. cbn. lia.
  - unfold Int64.is_int64, Int64.half. cbn. lia.
  - reflexivity.
Defined.

(** X16.  The gist tells the shape.  If two plan trees over the operator
    table, neither holding the check operator, are encoded to the same
    buffer, they have the same shape: the same operator at every node, the
    same number of inputs, in the same order. *)
Theorem same_gist_same_shape
  (ops : operatorTable) (checkOp : execOperator) (c : Catalog)
  (t1 t2 : PlanTree) :
  well_formed ops checkOp c t1 = true ->
  well_formed ops checkOp c t2 = true ->
  buffer (encodeTree t1 NewPlanGistFactory) = buffer (encodeTree t2 NewPlanGistFactory) ->
  shape_of_tree t1 = shape_of_tree t2.
Proof.
  intros H1 H2 Hbuf.
  pose proof (decode_of_encoded_tree ops checkOp c catchErrorValues t1 H1) as D1.
  pose proof (decode_of_encoded_tree ops checkOp c catchErrorValues t2 H2) as D2.
  rewrite Hbuf in D1. rewrite D1 in D2. inversion D2 as [Hnode].
  rewrite <- (shape_of_expected_node ops c t1), <- (shape_of_expected_node ops c t2).
  rewrite Hnode. reflexivity.
Qed.

(** Two scans of tables with one id and two names: one buffer, one shape. *)
Lemma same_gist_same_shape_witness :
  shape_of_tree (PT Ops.sortOp [CallColumnOrdering []]
                   [PT Ops.scanOp [CallDataSource 5 "t"] []])
  = shape_of_tree (PT Ops.sortOp [CallColumnOrdering [(1, true)]]
                     [PT Ops.scanOp [CallDataSource 5 "renamed"] []]).
Proof.
  apply (same_gist_same_shape Ops.table Ops.errorIfRowsOp Scenario.cat
           (PT Ops.sortOp [CallColumnOrdering []]
              [PT Ops.scanOp [CallDataSource 5 "t"] []])
           (PT Ops.sortOp [CallColumnOrdering [(1, true)]]
              [PT Ops.scanOp [CallDataSource 5 "renamed"] []])).
  - reflexivity.
  - reflexivity.
  - reflexivity.
Defined.
